(** * enforce-security-sla-action: the SLA check, embedded and verified

    The action fetches the open security alerts of a repository, keeps the
    ones that are older than the configured thresholds and publishes the
    verdict.  Two versions of [main.go] are covered: the one that publishes a
    check run only ([src/main.go], module [CheckRunOnly]) and the one that
    also reviews the pull request ([src/unnamed/part_000], module
    [WithReview]).  [Alert], [fetchRepoAlerts], [filterBreachedAlerts] and
    [isDisabledError] are the same text in both and are embedded once. *)

From Stdlib Require Import ZArith String Ascii Bool Lia DecimalString.
From stdpp Require Import base list.

Local Open Scope string_scope.
Local Open Scope list_scope.
Local Open Scope Z_scope.

(** ** Go's integers and the [time] package *)

(** [int], [int64] and [time.Duration] are 64-bit two's complement integers
    (the action runs on 64-bit runners): a [Z] reduced by [wrap64] after
    every arithmetic operation. *)
Definition wrap64 (z : Z) : Z := (z + 2 ^ 63) mod 2 ^ 64 - 2 ^ 63.

Definition Duration := Z.

Definition minDuration : Duration := - 2 ^ 63.
Definition maxDuration : Duration := 2 ^ 63 - 1.

Definition Nanosecond : Duration := 1.
Definition Microsecond : Duration := 1000 * Nanosecond.
Definition Millisecond : Duration := 1000 * Microsecond.
Definition Second : Duration := 1000 * Millisecond.
Definition Minute : Duration := 60 * Second.
Definition Hour : Duration := 60 * Minute.

(** An instant of the wall clock, in nanoseconds on the time line.  A
    [time.Time] ranges over far more than a [Duration] can measure, hence an
    unbounded [Z]; the timestamps of alerts come from the API and carry no
    monotonic reading, so [Sub] takes its wall-clock branch. *)
Definition Time := Z.

(** [t.Sub(u)]: the difference, or the largest (smallest) duration when the
    difference does not fit. *)
Definition Sub (t u : Time) : Duration :=
  if maxDuration <? t - u then maxDuration
  else if t - u <? minDuration then minDuration
  else t - u.

(** ** Errors *)

(** The [error] values the program tells apart: [*github.ErrorResponse]
    (of which only [Message] is read) and every other dynamic type. *)
Inductive error : Type :=
  | ErrorResponse (Message : string)
  | otherError (text : string).

(** [strings.Contains]. *)
Fixpoint strings_Contains (s substr : string) : bool :=
  String.prefix substr s
  || match s with
     | EmptyString => false
     | String _ s' => strings_Contains s' substr
     end.

(** ** Data model *)

(** The program passes alerts around as [[]*Alert].  [fetchRepoAlerts]
    builds every element with [&Alert{...}] and nothing writes through the
    pointers, so a slice of alerts is a list of records. *)
Record Alert : Type := {
  Kind : string;
  Severity : string;
  Link : string;
  CreatedAt : Time
}.

(** What the program reads of the three alert types of the API client; a
    getter on an absent field gives the zero value. *)
Record CodeScanningAlert : Type := {
  cs_RuleSeverity : string;
  cs_HTMLURL : string;
  cs_CreatedAt : Time
}.

Record DependabotAlert : Type := {
  dep_Severity : string;
  dep_HTMLURL : string;
  dep_CreatedAt : Time
}.

Record SecretScanningAlert : Type := {
  ss_HTMLURL : string;
  ss_CreatedAt : Time
}.

Inductive Event : Type :=
  | PullRequestEvent (number : Z) (headSHA : string)
  | PullRequestTargetEvent (number : Z) (headSHA : string)
  | OtherEvent (typeName : string).

Record CheckRunOutput : Type := {
  Title : option string;
  Summary : option string
}.

Record CreateCheckRunOptions : Type := {
  Name : string;
  HeadSHA : string;
  Status : option string;
  Conclusion : option string;
  StartedAt : option Time;
  CompletedAt : option Time;
  Output : option CheckRunOutput
}.

Record PullRequestReviewRequest : Type := {
  Body : option string;
  ReviewEvent : option string
}.

(** ** The world outside the process *)

Inductive Level : Type := LevelDebug | LevelInfo | LevelWarn.

Inductive Attr : Type :=
  | slog_String (key value : string)
  | slog_Int (key : string) (value : Z)
  | slog_DurationString (key : string) (d : Duration).

(** Everything the run does to the outside, in program order. *)
Inductive Effect : Type :=
  | Logged (level : Level) (msg : string) (attrs : list Attr)
  | CodeScanning_ListAlertsForRepo (owner name : string)
  | Dependabot_ListRepoAlerts (owner name : string)
  | SecretScanning_ListAlertsForRepo (owner name : string)
  | PullRequests_CreateReview (owner name : string) (number : Z)
      (review : PullRequestReviewRequest)
  | Checks_CreateCheckRun (owner name : string) (opts : CreateCheckRunOptions).

(** The answers of the collaborators (fixed for one run), the wall clock as
    the sequence of its successive readings, and what the run has done so
    far: the number of clock readings taken and the effects performed. *)
Record World : Type := {
  RepositoryOwner : string;
  RepositoryName : string;
  GetEvent_answer : Event * option error;
  CodeScanning_answer : list CodeScanningAlert * option error;
  Dependabot_answer : list DependabotAlert * option error;
  SecretScanning_answer : list SecretScanningAlert * option error;
  CreateReview_answer : option error;
  CreateCheckRun_answer : option error;
  wall : nat -> Time;
  ticks : nat;
  trace : list Effect
}.

Definition set_ticks (n : nat) (w : World) : World :=
  {| RepositoryOwner := RepositoryOwner w;
     RepositoryName := RepositoryName w;
     GetEvent_answer := GetEvent_answer w;
     CodeScanning_answer := CodeScanning_answer w;
     Dependabot_answer := Dependabot_answer w;
     SecretScanning_answer := SecretScanning_answer w;
     CreateReview_answer := CreateReview_answer w;
     CreateCheckRun_answer := CreateCheckRun_answer w;
     wall := wall w;
     ticks := n;
     trace := trace w |}.

Definition set_trace (t : list Effect) (w : World) : World :=
  {| RepositoryOwner := RepositoryOwner w;
     RepositoryName := RepositoryName w;
     GetEvent_answer := GetEvent_answer w;
     CodeScanning_answer := CodeScanning_answer w;
     Dependabot_answer := Dependabot_answer w;
     SecretScanning_answer := SecretScanning_answer w;
     CreateReview_answer := CreateReview_answer w;
     CreateCheckRun_answer := CreateCheckRun_answer w;
     wall := wall w;
     ticks := ticks w;
     trace := t |}.

(** ** A state monad over the world *)

Definition M (A : Type) : Type := World -> A * World.

Definition ret {A : Type} (a : A) : M A := fun w => (a, w).

Definition bind {A B : Type} (c : M A) (k : A -> M B) : M B :=
  fun w => let (a, w') := c w in k a w'.

Notation "x <- c ;; k" := (bind c (fun x => k))
  (at level 100, c at next level, right associativity).
Notation "c ;;; k" := (bind c (fun _ => k))
  (at level 100, right associativity).

Definition perform (e : Effect) : M unit :=
  fun w => (tt, set_trace (trace w ++ [e]) w).

Definition ask {A : Type} (f : World -> A) : M A := fun w => (f w, w).

(** [time.Now()]: the next reading of the clock. *)
Definition time_Now : M Time :=
  fun w => (wall w (ticks w), set_ticks (S (ticks w)) w).

(** [time.Since(t)] is [time.Now().Sub(t)]. *)
Definition time_Since (t : Time) : M Duration :=
  now <- time_Now ;; ret (Sub now t).

(** ** The SLA evaluator *)

(** The condition of the [if] in the loop of [filterBreachedAlerts]. *)
Definition exceeds (s criticalThreshold highThreshold mediumThreshold
                      lowThreshold : Duration) : bool :=
  (s >? criticalThreshold) || (s >? highThreshold)
  || (s >? mediumThreshold) || (s >? lowThreshold).

(** The [for ... range alerts] loop, [breached] being the slice built so
    far. *)
Fixpoint filterBreachedAlerts_loop (alerts : list Alert)
    (criticalThreshold highThreshold mediumThreshold lowThreshold : Duration)
    (breached : list Alert) : M (list Alert) :=
  match alerts with
  | [] => ret breached
  | a :: rest =>
      s <- time_Since (CreatedAt a) ;;
      filterBreachedAlerts_loop rest
        criticalThreshold highThreshold mediumThreshold lowThreshold
        (if exceeds s criticalThreshold highThreshold mediumThreshold
              lowThreshold
         then breached ++ [a] else breached)
  end.

Definition filterBreachedAlerts (alerts : list Alert)
    (criticalThreshold highThreshold mediumThreshold lowThreshold : Duration)
    : M (list Alert) :=
  filterBreachedAlerts_loop alerts
    criticalThreshold highThreshold mediumThreshold lowThreshold [].

(** ** Fetching the alerts *)

Definition slog (level : Level) (msg : string) (attrs : list Attr) : M unit :=
  perform (Logged level msg attrs).

Definition isDisabledError (err : error) : M bool :=
  match err with
  | ErrorResponse Message =>
      if strings_Contains Message "disabled" then
        slog LevelWarn "Security feature disabled"
          [slog_String "error" Message] ;;;
        ret true
      else ret false
  | otherError _ => ret false
  end.

(** The guard [err != nil && !isDisabledError(err)]; [&&] evaluates its
    right operand only when the left one holds. *)
Definition failed (err : option error) : M bool :=
  match err with
  | None => ret false
  | Some e => d <- isDisabledError e ;; ret (negb d)
  end.

(** The three listing calls of the API client (state "open", one page of
    100): the request is recorded and the collaborator's answer returned.
    A call of the client that fails answers with a nil slice and its
    error. *)
Definition ghClient_CodeScanning_ListAlertsForRepo (owner name : string)
    : M (list CodeScanningAlert * option error) :=
  perform (CodeScanning_ListAlertsForRepo owner name) ;;;
  ask CodeScanning_answer.

Definition ghClient_Dependabot_ListRepoAlerts (owner name : string)
    : M (list DependabotAlert * option error) :=
  perform (Dependabot_ListRepoAlerts owner name) ;;;
  ask Dependabot_answer.

Definition ghClient_SecretScanning_ListAlertsForRepo (owner name : string)
    : M (list SecretScanningAlert * option error) :=
  perform (SecretScanning_ListAlertsForRepo owner name) ;;;
  ask SecretScanning_answer.

Definition of_CodeScanning (a : CodeScanningAlert) : Alert :=
  {| Kind := "CodeScanning";
     Severity := cs_RuleSeverity a;
     Link := cs_HTMLURL a;
     CreatedAt := cs_CreatedAt a |}.

Definition of_Dependabot (a : DependabotAlert) : Alert :=
  {| Kind := "Dependabot";
     Severity := dep_Severity a;
     Link := dep_HTMLURL a;
     CreatedAt := dep_CreatedAt a |}.

Definition of_SecretScanning (a : SecretScanningAlert) : Alert :=
  {| Kind := "SecretScanning";
     Severity := "critical";
     Link := ss_HTMLURL a;
     CreatedAt := ss_CreatedAt a |}.

(** [for _, a := range xs { alerts = append(alerts, &Alert{...}) }]. *)
Definition append_each {A : Type} (mk : A -> Alert) (xs : list A)
    (alerts : list Alert) : list Alert :=
  fold_left (fun alerts a => alerts ++ [mk a]) xs alerts.

Definition fetchRepoAlerts (owner name : string)
    : M (list Alert * option error) :=
  let alerts : list Alert := [] in
  r <- ghClient_CodeScanning_ListAlertsForRepo owner name ;;
  let (codeScanningAlerts, err) := r in
  stop <- failed err ;;
  if stop : bool then ret ([], err) else
  let alerts := append_each of_CodeScanning codeScanningAlerts alerts in
  r <- ghClient_Dependabot_ListRepoAlerts owner name ;;
  let (dependabotAlerts, err) := r in
  stop <- failed err ;;
  if stop : bool then ret ([], err) else
  let alerts := append_each of_Dependabot dependabotAlerts alerts in
  r <- ghClient_SecretScanning_ListAlertsForRepo owner name ;;
  let (secretScanningAlerts, err) := r in
  stop <- failed err ;;
  if stop : bool then ret ([], err) else
  let alerts := append_each of_SecretScanning secretScanningAlerts alerts in
  ret (alerts, None).

(** ** The run *)

Record Action : Type := {
  Token : string;
  Critical : Z;
  High : Z;
  Medium : Z;
  Low : Z
}.

(** The four thresholds of [Run], each [time.Duration(days*24) * time.Hour]:
    an [int] product converted to a [Duration] and multiplied by
    [time.Hour], both products in 64 bits. *)
Definition criticalThreshold (a : Action) : Duration :=
  wrap64 (wrap64 (Critical a * 24) * Hour).

Definition highThreshold (a : Action) : Duration :=
  wrap64 (wrap64 (High a * 24) * Hour).

Definition mediumThreshold (a : Action) : Duration :=
  wrap64 (wrap64 (Medium a * 24) * Hour).

Definition lowThreshold (a : Action) : Duration :=
  wrap64 (wrap64 (Low a * 24) * Hour).

Definition checkRunSuccessTitle : string := "No security SLA breaches found".
Definition checkRunSuccessText : string :=
  "All security alerts are within the security SLA.".
Definition checkRunFailureTitle : string := "Found %d security SLA breaches".
Definition checkRunFailureText : string :=
  "Found %d out of %d security alerts breaching security SLA.".

(** The verb [%d] on an [int]. *)
Definition fmt_d (n : Z) : string := NilZero.string_of_int (Z.to_int n).

(** [fmt.Sprintf(checkRunFailureTitle, n)] and
    [fmt.Sprintf(checkRunFailureText, n, total)]. *)
Definition Sprintf_checkRunFailureTitle (n : Z) : string :=
  ("Found " ++ fmt_d n ++ " security SLA breaches")%string.

Definition Sprintf_checkRunFailureText (n total : Z) : string :=
  ("Found " ++ fmt_d n ++ " out of " ++ fmt_d total
   ++ " security alerts breaching security SLA.")%string.

Definition len {A : Type} (l : list A) : Z := Z.of_nat (length l).

Definition action_GetEvent : M (Event * option error) := ask GetEvent_answer.

Definition ghClient_Checks_CreateCheckRun (owner name : string)
    (opts : CreateCheckRunOptions) : M (option error) :=
  perform (Checks_CreateCheckRun owner name opts) ;;;
  ask CreateCheckRun_answer.

Definition ghClient_PullRequests_CreateReview (owner name : string)
    (number : Z) (review : PullRequestReviewRequest) : M (option error) :=
  perform (PullRequests_CreateReview owner name number review) ;;;
  ask CreateReview_answer.

Definition log_Configuration (c h m l : Duration) : M unit :=
  slog LevelDebug "Configuration"
    [slog_DurationString "critical" c; slog_DurationString "high" h;
     slog_DurationString "medium" m; slog_DurationString "low" l].

Definition log_Alerts_found (alerts breached : list Alert) : M unit :=
  slog LevelInfo "Alerts found"
    [slog_Int "total" (len alerts); slog_Int "breached" (len breached)].

(** The two event types the run accepts carry the head commit of the pull
    request and its number; [%T] prints the dynamic type of any other. *)
Definition pull_request (event : Event) : Z * string + string :=
  match event with
  | PullRequestEvent number sha => inl (number, sha)
  | PullRequestTargetEvent number sha => inl (number, sha)
  | OtherEvent typeName => inr typeName
  end.

Definition unexpected_event_type (typeName : string) : error :=
  otherError ("unexpected event type: " ++ typeName)%string.

(** *** [src/main.go]: the verdict is a check run *)
Module CheckRunOnly.

Definition checkRunName : string := "Security SLA".

(** [checkRunOpts] once [CompletedAt], [Conclusion] and [Output] are
    assigned. *)
Definition completed (checkRunOpts : CreateCheckRunOptions)
    (now : Time) (conclusion title summary : string)
    : CreateCheckRunOptions :=
  {| Name := Name checkRunOpts;
     HeadSHA := HeadSHA checkRunOpts;
     Status := Status checkRunOpts;
     Conclusion := Some conclusion;
     StartedAt := StartedAt checkRunOpts;
     CompletedAt := Some now;
     Output := Some {| Title := Some title; Summary := Some summary |} |}.

Definition Run (a : Action) : M (option error) :=
  let criticalThreshold := criticalThreshold a in
  let highThreshold := highThreshold a in
  let mediumThreshold := mediumThreshold a in
  let lowThreshold := lowThreshold a in
  r <- action_GetEvent ;;
  let (event, err) := r in
  match err with
  | Some e => ret (Some e)
  | None =>
  started <- time_Now ;;
  match pull_request event with
  | inr typeName => ret (Some (unexpected_event_type typeName))
  | inl (_, sha) =>
  let checkRunOpts :=
    {| Name := checkRunName; HeadSHA := sha; Status := Some "completed";
       Conclusion := None; StartedAt := Some started; CompletedAt := None;
       Output := None |} in
  log_Configuration criticalThreshold highThreshold mediumThreshold
    lowThreshold ;;;
  owner <- ask RepositoryOwner ;;
  name <- ask RepositoryName ;;
  r <- fetchRepoAlerts owner name ;;
  let (alerts, err) := r in
  match err with
  | Some e => ret (Some e)
  | None =>
  if len alerts =? 0 then
    now <- time_Now ;;
    ghClient_Checks_CreateCheckRun owner name
      (completed checkRunOpts now "success"
         checkRunSuccessTitle checkRunSuccessText)
  else
  breached <- filterBreachedAlerts alerts criticalThreshold highThreshold
                mediumThreshold lowThreshold ;;
  log_Alerts_found alerts breached ;;;
  if len breached =? 0 then
    now <- time_Now ;;
    ghClient_Checks_CreateCheckRun owner name
      (completed checkRunOpts now "success"
         checkRunSuccessTitle checkRunSuccessText)
  else
  now <- time_Now ;;
  ghClient_Checks_CreateCheckRun owner name
    (completed checkRunOpts now "failure"
       (Sprintf_checkRunFailureTitle (len breached))
       (Sprintf_checkRunFailureText (len breached) (len alerts)))
  end end end.

End CheckRunOnly.

(** *** [src/unnamed/part_000]: the verdict is a review and a check run *)
Module WithReview.

Definition checkRunName : string := "enforce-security-sla-action".

Definition check_run (prHeadSHA : string) (startTime now : Time)
    (conclusion title summary : string) : CreateCheckRunOptions :=
  {| Name := checkRunName;
     HeadSHA := prHeadSHA;
     Status := Some "completed";
     Conclusion := Some conclusion;
     StartedAt := Some startTime;
     CompletedAt := Some now;
     Output := Some {| Title := Some title; Summary := Some summary |} |}.

Definition approve : PullRequestReviewRequest :=
  {| Body := None; ReviewEvent := Some "APPROVE" |}.

Definition request_changes (body : string) : PullRequestReviewRequest :=
  {| Body := Some body; ReviewEvent := Some "REQUEST_CHANGES" |}.

Definition Run (a : Action) : M (option error) :=
  startTime <- time_Now ;;
  let criticalThreshold := criticalThreshold a in
  let highThreshold := highThreshold a in
  let mediumThreshold := mediumThreshold a in
  let lowThreshold := lowThreshold a in
  r <- action_GetEvent ;;
  let (event, err) := r in
  match err with
  | Some e => ret (Some e)
  | None =>
  match pull_request event with
  | inr typeName => ret (Some (unexpected_event_type typeName))
  | inl (prNumber, prHeadSHA) =>
  log_Configuration criticalThreshold highThreshold mediumThreshold
    lowThreshold ;;;
  owner <- ask RepositoryOwner ;;
  name <- ask RepositoryName ;;
  r <- fetchRepoAlerts owner name ;;
  let (alerts, err) := r in
  match err with
  | Some e => ret (Some e)
  | None =>
  if len alerts =? 0 then
    err <- ghClient_PullRequests_CreateReview owner name prNumber approve ;;
    match err with
    | Some e => ret (Some e)
    | None =>
        now <- time_Now ;;
        ghClient_Checks_CreateCheckRun owner name
          (check_run prHeadSHA startTime now "success"
             checkRunSuccessTitle checkRunFailureText)
    end
  else
  breached <- filterBreachedAlerts alerts criticalThreshold highThreshold
                mediumThreshold lowThreshold ;;
  log_Alerts_found alerts breached ;;;
  if len breached =? 0 then
    err <- ghClient_PullRequests_CreateReview owner name prNumber approve ;;
    match err with
    | Some e => ret (Some e)
    | None =>
        now <- time_Now ;;
        ghClient_Checks_CreateCheckRun owner name
          (check_run prHeadSHA startTime now "success"
             checkRunSuccessTitle checkRunFailureText)
    end
  else
  err <- ghClient_PullRequests_CreateReview owner name prNumber
           (request_changes
              (Sprintf_checkRunFailureText (len breached) (len alerts))) ;;
  match err with
  | Some e => ret (Some e)
  | None =>
      now <- time_Now ;;
      ghClient_Checks_CreateCheckRun owner name
        (check_run prHeadSHA startTime now "failure"
           (Sprintf_checkRunFailureTitle (len breached))
           (Sprintf_checkRunFailureText (len breached) (len alerts)))
  end
  end end end.

End WithReview.

(** ** Notions the statements use *)

(** The age [filterBreachedAlerts] measures for the alert at position [i] of
    its input: the loop reads the clock once per alert, so this is the time
    from [CreatedAt] to the [i]-th reading after the call starts. *)
Definition age (w : World) (i : nat) (a : Alert) : Duration :=
  Sub (wall w (ticks w + i)) (CreatedAt a).

(** The threshold of an alert's own severity tier, as the specification's
    "applicable threshold" reads; no function of the program computes it. *)
Definition applicableThreshold (severity : string)
    (criticalThreshold highThreshold mediumThreshold lowThreshold : Duration)
    : option Duration :=
  if String.eqb severity "critical" then Some criticalThreshold
  else if String.eqb severity "high" then Some highThreshold
  else if String.eqb severity "medium" then Some mediumThreshold
  else if String.eqb severity "low" then Some lowThreshold
  else None.

(** The error of a listing call that [isDisabledError] accepts. *)
Definition disabled (e : error) : bool :=
  match e with
  | ErrorResponse Message => strings_Contains Message "disabled"
  | otherError _ => false
  end.

(** What the run has published: its reviews and check runs. *)
Definition is_publication (e : Effect) : bool :=
  match e with
  | PullRequests_CreateReview _ _ _ _ => true
  | Checks_CreateCheckRun _ _ _ => true
  | _ => false
  end.

Definition published (w : World) : list Effect :=
  List.filter is_publication (trace w).

(** A world for examples: no alerts anywhere, every call succeeds, and the
    clock shows [now] at every reading. *)
Definition quiet (event : Event) (now : Time) : World :=
  {| RepositoryOwner := "underopsco";
     RepositoryName := "enforce-security-sla-action";
     GetEvent_answer := (event, None);
     CodeScanning_answer := ([], None);
     Dependabot_answer := ([], None);
     SecretScanning_answer := ([], None);
     CreateReview_answer := None;
     CreateCheckRun_answer := None;
     wall := fun _ => now;
     ticks := 0;
     trace := [] |}.

Definition Day : Duration := 24 * Hour.

(** The alerts the loop keeps, as a function of the clock readings: the
    alert at position [i] of [alerts] meets reading [k + i]. *)
Fixpoint kept (clock : nat -> Time) (k : nat) (alerts : list Alert)
    (c h m l : Duration) : list Alert :=
  match alerts with
  | [] => []
  | a :: rest =>
      if exceeds (Sub (clock k) (CreatedAt a)) c h m l
      then a :: kept clock (S k) rest c h m l
      else kept clock (S k) rest c h m l
  end.

(** The listing error that stops [fetchRepoAlerts]. *)
Definition fatal (err : option error) : bool :=
  match err with
  | Some e => negb (disabled e)
  | None => false
  end.

(** The warning [isDisabledError] logs for the error of a listing call. *)
Definition warning (err : option error) : list Effect :=
  match err with
  | Some (ErrorResponse Message) =>
      if strings_Contains Message "disabled"
      then [Logged LevelWarn "Security feature disabled"
              [slog_String "error" Message]]
      else []
  | _ => []
  end.

(** The result of [fetchRepoAlerts] and its effects, read off the answers
    of the three listing calls. *)
Definition fetched (w : World) : list Alert * option error :=
  if fatal (CodeScanning_answer w).2 then ([], (CodeScanning_answer w).2)
  else if fatal (Dependabot_answer w).2 then ([], (Dependabot_answer w).2)
  else if fatal (SecretScanning_answer w).2
       then ([], (SecretScanning_answer w).2)
  else (map of_CodeScanning (CodeScanning_answer w).1
        ++ map of_Dependabot (Dependabot_answer w).1
        ++ map of_SecretScanning (SecretScanning_answer w).1, None).

Definition fetch_effects (owner name : string) (w : World) : list Effect :=
  CodeScanning_ListAlertsForRepo owner name
  :: warning (CodeScanning_answer w).2
  ++ (if fatal (CodeScanning_answer w).2 then [] else
      Dependabot_ListRepoAlerts owner name
      :: warning (Dependabot_answer w).2
      ++ (if fatal (Dependabot_answer w).2 then [] else
          SecretScanning_ListAlertsForRepo owner name
          :: warning (SecretScanning_answer w).2)).

(** A world for examples with the given answers of the listing calls: the
    event is a pull request, publishing succeeds, and the clock shows [now]
    at every reading. *)
Definition answering
    (codeScanning : list CodeScanningAlert * option error)
    (dependabot : list DependabotAlert * option error)
    (secretScanning : list SecretScanningAlert * option error)
    (now : Time) : World :=
  {| RepositoryOwner := "underopsco";
     RepositoryName := "enforce-security-sla-action";
     GetEvent_answer := (PullRequestEvent 1 "abc", None);
     CodeScanning_answer := codeScanning;
     Dependabot_answer := dependabot;
     SecretScanning_answer := secretScanning;
     CreateReview_answer := None;
     CreateCheckRun_answer := None;
     wall := fun _ => now;
     ticks := 0;
     trace := [] |}.

(** Sample inputs for the examples. *)
Definition sample_action : Action :=
  {| Token := "token"; Critical := 1; High := 7; Medium := 30; Low := 90 |}.

Definition sample_alert (kind severity : string) (createdAt : Time) : Alert :=
  {| Kind := kind; Severity := severity;
     Link := "https://github.com/underopsco/enforce-security-sla-action";
     CreatedAt := createdAt |}.

Definition sample_event : Event := PullRequestEvent 1 "abc".

(** The day counts whose threshold fits a [Duration]. *)
Definition fits (days : Z) : Prop := - 106751 <= days <= 106751.

(** A world for examples with the given answer of [action.GetEvent] and of
    the two publishing calls; no alerts anywhere, the clock at [now]. *)
Definition with_answers (event : Event * option error)
    (review checkRun : option error) (now : Time) : World :=
  {| RepositoryOwner := "underopsco";
     RepositoryName := "enforce-security-sla-action";
     GetEvent_answer := event;
     CodeScanning_answer := ([], None);
     Dependabot_answer := ([], None);
     SecretScanning_answer := ([], None);
     CreateReview_answer := review;
     CreateCheckRun_answer := checkRun;
     wall := fun _ => now;
     ticks := 0;
     trace := [] |}.

(** A clock that never goes back. *)
Definition monotone (clock : nat -> Time) : Prop :=
  forall i j : nat, (i <= j)%nat -> clock i <= clock j.

(** The listing requests among the effects. *)
Definition is_request (e : Effect) : bool :=
  match e with
  | CodeScanning_ListAlertsForRepo _ _ => true
  | Dependabot_ListRepoAlerts _ _ => true
  | SecretScanning_ListAlertsForRepo _ _ => true
  | _ => false
  end.

(** * Properties *)

(** ** The world and the monad *)

Lemma set_ticks_same w : set_ticks (ticks w) w = w.
Proof. by destruct w. Qed.

Lemma set_ticks_twice n k w : set_ticks n (set_ticks k w) = set_ticks n w.
Proof. reflexivity. Qed.

(** ** 64-bit arithmetic *)

Lemma wrap64_small z : - 2 ^ 63 <= z < 2 ^ 63 -> wrap64 z = z.
Proof.
  intros Hz. unfold wrap64.
  rewrite Z.mod_small by lia. lia.
Qed.

Lemma wrap64_mul_l x y : wrap64 (wrap64 x * y) = wrap64 (x * y).
Proof.
  unfold wrap64. f_equal.
  replace ((x + 2 ^ 63) mod 2 ^ 64 - 2 ^ 63)
    with ((x + 2 ^ 63) mod 2 ^ 64 + (- 2 ^ 63)) by lia.
  rewrite Z.mul_add_distr_r, <- Z.add_assoc.
  rewrite Z.add_mod, Z.mul_mod, Z.mod_mod, <- Z.mul_mod, <- Z.add_mod by lia.
  f_equal. lia.
Qed.

Lemma Sub_exact t u :
  minDuration <= t - u <= maxDuration -> Sub t u = t - u.
Proof.
  intros H. unfold Sub.
  destruct (Z.ltb_spec maxDuration (t - u)); [lia|].
  destruct (Z.ltb_spec (t - u) minDuration); [lia|done].
Qed.

Lemma Sub_range t u : minDuration <= Sub t u <= maxDuration.
Proof.
  unfold Sub, minDuration, maxDuration.
  destruct (Z.ltb_spec (2 ^ 63 - 1) (t - u)); [lia|].
  destruct (Z.ltb_spec (t - u) (- 2 ^ 63)); lia.
Qed.

(** ** The loop of the evaluator *)

Lemma exceeds_true s c h m l :
  exceeds s c h m l = true <-> s > c \/ s > h \/ s > m \/ s > l.
Proof.
  unfold exceeds. rewrite !orb_true_iff, <- !Zgt_is_gt_bool. tauto.
Qed.

Lemma exceeds_min s c h m l :
  exceeds s c h m l = (s >? Z.min c (Z.min h (Z.min m l))).
Proof.
  apply eq_true_iff_eq. rewrite exceeds_true, <- Zgt_is_gt_bool. lia.
Qed.

Lemma filterBreachedAlerts_loop_kept alerts c h m l breached w :
  filterBreachedAlerts_loop alerts c h m l breached w
  = (breached ++ kept (wall w) (ticks w) alerts c h m l,
     set_ticks (ticks w + length alerts) w).
Proof.
  revert breached w.
  induction alerts as [|a rest IH]; intros breached w; simpl.
  - unfold ret. by rewrite app_nil_r, Nat.add_0_r, set_ticks_same.
  - unfold bind, time_Since, time_Now, ret; simpl.
    rewrite IH; simpl. rewrite set_ticks_twice.
    replace (S (ticks w + length rest))%nat
      with (ticks w + S (length rest))%nat by lia.
    destruct (exceeds _ c h m l); [by rewrite <- app_assoc|done].
Qed.

Lemma filterBreachedAlerts_kept alerts c h m l w :
  filterBreachedAlerts alerts c h m l w
  = (kept (wall w) (ticks w) alerts c h m l,
     set_ticks (ticks w + length alerts) w).
Proof. apply filterBreachedAlerts_loop_kept. Qed.

Lemma elem_of_kept clock k alerts c h m l a :
  a ∈ kept clock k alerts c h m l
  <-> exists i : nat,
        alerts !! i = Some a
        /\ exceeds (Sub (clock (k + i)%nat) (CreatedAt a)) c h m l = true.
Proof.
  revert k. induction alerts as [|b rest IH]; intros k; simpl.
  - split; [by intros ?%elem_of_nil|by intros (i & ? & _)].
  - assert (Hrest :
      a ∈ kept clock (S k) rest c h m l
      <-> exists i : nat, (b :: rest) !! S i = Some a
            /\ exceeds (Sub (clock (k + S i)%nat) (CreatedAt a)) c h m l
               = true).
    { rewrite IH. apply exist_proper; intros i.
      by replace (S k + i)%nat with (k + S i)%nat by lia. }
    destruct (exceeds (Sub (clock k) (CreatedAt b)) c h m l) eqn:Hb.
    + rewrite elem_of_cons, Hrest. split.
      * intros [->|(i & ? & ?)]; [|by exists (S i)].
        exists 0%nat. by rewrite Nat.add_0_r.
      * intros ([|i] & Hi & He); [left; simpl in Hi; congruence|].
        right. by exists i.
    + rewrite Hrest. split.
      * intros (i & ? & ?). by exists (S i).
      * intros ([|i] & Hi & He); [|by exists i].
        simpl in Hi. injection Hi as ->.
        rewrite Nat.add_0_r in He. congruence.
Qed.

Lemma kept_sublist clock k alerts c h m l :
  kept clock k alerts c h m l `sublist_of` alerts.
Proof.
  revert k. induction alerts as [|a rest IH]; intros k; simpl.
  - constructor.
  - destruct (exceeds _ c h m l); constructor; apply IH.
Qed.

Lemma kept_ext clock clock' k k' alerts c h m l :
  (forall i : nat, (i < length alerts)%nat ->
     clock (k + i)%nat = clock' (k' + i)%nat) ->
  kept clock k alerts c h m l = kept clock' k' alerts c h m l.
Proof.
  revert k k'. induction alerts as [|a rest IH]; intros k k' H; simpl.
  - done.
  - assert (clock k = clock' k') as <-.
    { specialize (H 0%nat). rewrite !Nat.add_0_r in H. apply H. simpl. lia. }
    rewrite (IH (S k) (S k')); [done|].
    intros i Hi. specialize (H (S i)).
    rewrite !Nat.add_succ_r in H. apply H. simpl. lia.
Qed.

Lemma kept_exceeds_ext clock k alerts c h m l c' h' m' l' :
  (forall s, exceeds s c h m l = exceeds s c' h' m' l') ->
  kept clock k alerts c h m l = kept clock k alerts c' h' m' l'.
Proof.
  intros H. revert k.
  induction alerts as [|a rest IH]; intros k; simpl; [done|].
  by rewrite H, !IH.
Qed.

Lemma exceeds_elem_of s c h m l :
  exceeds s c h m l = true <-> exists t, t ∈ [c; h; m; l] /\ s > t.
Proof.
  rewrite exceeds_true. split.
  - intros [H|[H|[H|H]]]; eexists; (split; [|exact H]);
      rewrite !elem_of_cons; auto.
  - intros (t & Ht & H).
    rewrite !elem_of_cons, elem_of_nil in Ht.
    destruct Ht as [->|[->|[->|[->|[]]]]]; auto.
Qed.

Lemma exceeds_Permutation s c h m l c' h' m' l' :
  [c; h; m; l] ≡ₚ [c'; h'; m'; l'] ->
  exceeds s c h m l = exceeds s c' h' m' l'.
Proof.
  intros HP. apply eq_true_iff_eq. rewrite !exceeds_elem_of.
  apply exist_proper; intros t. by rewrite HP.
Qed.

Lemma age_exceeds w i a c h m l :
  exceeds (Sub (wall w (ticks w + i)%nat) (CreatedAt a)) c h m l = true
  <-> age w i a > c \/ age w i a > h \/ age w i a > m \/ age w i a > l.
Proof. apply exceeds_true. Qed.

Lemma elem_of_filterBreachedAlerts alerts c h m l w a :
  a ∈ (filterBreachedAlerts alerts c h m l w).1
  <-> exists i : nat,
        alerts !! i = Some a
        /\ (age w i a > c \/ age w i a > h \/ age w i a > m \/ age w i a > l).
Proof.
  rewrite filterBreachedAlerts_kept; simpl.
  rewrite elem_of_kept. apply exist_proper; intros i.
  by rewrite age_exceeds.
Qed.

(** ** The SLA evaluator: the claims *)

(** C1: an alert is in the result of [filterBreachedAlerts] if and only if,
    at some position of the input that holds it, its age (the time since its
    [CreatedAt] when the loop reaches that position) exceeds at least one of
    the four thresholds; its severity plays no part. *)
Theorem filterBreachedAlerts_any_threshold
    (alerts : list Alert) (c h m l : Duration) (w : World) (a : Alert) :
  a ∈ (filterBreachedAlerts alerts c h m l w).1
  <-> exists i : nat,
        alerts !! i = Some a
        /\ (age w i a > c \/ age w i a > h \/ age w i a > m \/ age w i a > l).
Proof. apply elem_of_filterBreachedAlerts. Qed.

(** C2, at an input where the program departs from it: a two-day-old alert
    of severity "low" is reported under thresholds of 1, 7, 30 and 90 days,
    although the threshold of its own tier is 90 days. *)
Theorem filterBreachedAlerts_ignores_severity :
  let a := {| Kind := "Dependabot"; Severity := "low";
              Link := "https://github.com/o/r/security/dependabot/1";
              CreatedAt := 0 |} in
  let w := quiet (PullRequestEvent 1 "abc") (2 * Day) in
  (filterBreachedAlerts [a] (1 * Day) (7 * Day) (30 * Day) (90 * Day) w).1
  = [a]
  /\ applicableThreshold (Severity a) (1 * Day) (7 * Day) (30 * Day) (90 * Day)
     = Some (90 * Day)
  /\ age w 0 a = 2 * Day
  /\ age w 0 a <= 90 * Day.
Proof. vm_compute. repeat split; congruence. Qed.

(** C4: when the age of every alert of the input is at most each of the
    four thresholds, [filterBreachedAlerts] returns the empty list. *)
Theorem filterBreachedAlerts_all_within
    (alerts : list Alert) (c h m l : Duration) (w : World) :
  (forall (i : nat) (a : Alert), alerts !! i = Some a ->
     age w i a <= c /\ age w i a <= h /\ age w i a <= m /\ age w i a <= l) ->
  (filterBreachedAlerts alerts c h m l w).1 = [].
Proof.
  intros Hall. apply elem_of_nil_inv; intros a.
  rewrite elem_of_filterBreachedAlerts.
  intros (i & Hi & Hage). specialize (Hall i a Hi). lia.
Qed.

(** C5: an alert of the input whose age exceeds the largest of the four
    thresholds is in the list [filterBreachedAlerts] returns. *)
Theorem filterBreachedAlerts_older_than_max
    (alerts : list Alert) (c h m l : Duration) (w : World)
    (i : nat) (a : Alert) :
  alerts !! i = Some a ->
  age w i a > Z.max c (Z.max h (Z.max m l)) ->
  a ∈ (filterBreachedAlerts alerts c h m l w).1.
Proof.
  intros Hi Hage. apply elem_of_filterBreachedAlerts.
  exists i. split; [done|lia].
Qed.

(** C8 as amended: [filterBreachedAlerts] returns a list on every input and
    does nothing but read the clock once per alert; its result is a function
    of the alerts, the thresholds and those readings, so two runs that read
    the same instants return the same breached list. *)
Theorem filterBreachedAlerts_clock_only
    (alerts : list Alert) (c h m l : Duration) (w w' : World) :
  (forall i : nat, (i < length alerts)%nat ->
     wall w (ticks w + i)%nat = wall w' (ticks w' + i)%nat) ->
  (filterBreachedAlerts alerts c h m l w).1
  = (filterBreachedAlerts alerts c h m l w').1
  /\ (filterBreachedAlerts alerts c h m l w).2
     = set_ticks (ticks w + length alerts) w.
Proof.
  intros Hclock. rewrite !filterBreachedAlerts_kept; simpl.
  split; [by apply kept_ext|done].
Qed.

(** C9: the result of [filterBreachedAlerts] is the same for every order of
    its four thresholds, and the same as with their minimum in all four
    places. *)
Theorem filterBreachedAlerts_threshold_order
    (alerts : list Alert) (c h m l c' h' m' l' : Duration) (w : World) :
  [c; h; m; l] ≡ₚ [c'; h'; m'; l'] ->
  filterBreachedAlerts alerts c h m l w
  = filterBreachedAlerts alerts c' h' m' l' w
  /\ filterBreachedAlerts alerts c h m l w
     = filterBreachedAlerts alerts
         (Z.min c (Z.min h (Z.min m l))) (Z.min c (Z.min h (Z.min m l)))
         (Z.min c (Z.min h (Z.min m l))) (Z.min c (Z.min h (Z.min m l))) w.
Proof.
  intros HP. rewrite !filterBreachedAlerts_kept. split; f_equal.
  - apply kept_exceeds_ext. intros s. by apply exceeds_Permutation.
  - apply kept_exceeds_ext. intros s. rewrite !exceeds_min. f_equal. lia.
Qed.


(** ** Fetching *)

Lemma set_trace_same w : set_trace (trace w) w = w.
Proof. by destruct w. Qed.

Lemma failed_fatal err w :
  failed err w = (fatal err, set_trace (trace w ++ warning err) w).
Proof.
  destruct err as [[Message|text]|]; simpl;
    unfold bind, ret, slog, perform; simpl.
  - destruct (strings_Contains Message "disabled"); simpl; [done|].
    by rewrite app_nil_r, set_trace_same.
  - by rewrite app_nil_r, set_trace_same.
  - by rewrite app_nil_r, set_trace_same.
Qed.

Lemma append_each_map {A : Type} (mk : A -> Alert) xs alerts :
  append_each mk xs alerts = alerts ++ map mk xs.
Proof.
  unfold append_each. revert alerts.
  induction xs as [|x xs IH]; intros alerts; simpl.
  - by rewrite app_nil_r.
  - by rewrite IH, <- app_assoc.
Qed.

Lemma fetchRepoAlerts_fetched owner name w :
  fetchRepoAlerts owner name w
  = (fetched w, set_trace (trace w ++ fetch_effects owner name w) w).
Proof.
  destruct w as [o n ev [cs e1] [dep e2] [ss e3] cr cc clock k t].
  unfold fetchRepoAlerts, fetched, fetch_effects,
    ghClient_CodeScanning_ListAlertsForRepo,
    ghClient_Dependabot_ListRepoAlerts,
    ghClient_SecretScanning_ListAlertsForRepo, bind, perform, ask, ret.
  cbn. rewrite failed_fatal; cbn.
  destruct (fatal e1); cbn.
  { by rewrite app_nil_r, <- app_assoc. }
  rewrite failed_fatal; cbn.
  destruct (fatal e2); cbn.
  { by rewrite app_nil_r, <- !app_assoc. }
  rewrite failed_fatal; cbn.
  destruct (fatal e3); cbn.
  { by rewrite <- !app_assoc. }
  rewrite !append_each_map; cbn.
  by rewrite <- !app_assoc.
Qed.

Lemma fetched_set_trace t w : fetched (set_trace t w) = fetched w.
Proof. reflexivity. Qed.

Lemma fetched_set_ticks n w : fetched (set_ticks n w) = fetched w.
Proof. reflexivity. Qed.

Lemma fetch_effects_no_publication owner name w :
  List.filter is_publication (fetch_effects owner name w) = [].
Proof.
  unfold fetch_effects, warning.
  repeat match goal with
         | |- context [match ?x with _ => _ end] => destruct x; simpl
         end; reflexivity.
Qed.

(** ** The run *)

Ltac run_to_fetch :=
  unfold bind, action_GetEvent, ask, time_Now, log_Configuration, slog,
    perform; simpl;
  repeat match goal with
         | H : GetEvent_answer _ = _ |- _ => rewrite H; simpl
         | H : pull_request _ = _ |- _ => rewrite H; simpl
         end;
  rewrite fetchRepoAlerts_fetched, ?fetched_set_trace, ?fetched_set_ticks.

Ltac run_publish :=
  unfold ghClient_Checks_CreateCheckRun, ghClient_PullRequests_CreateReview,
    bind, ask, perform, time_Now, ret; simpl.

(** C3: when the event is a pull request and the fetched list of alerts is
    empty, the breached set is empty and the run publishes a check run
    (after an approving review, in the version that reviews) with
    conclusion "success", and returns no error, provided publishing
    succeeds. *)
Theorem Run_no_alerts (a : Action) (w : World) (event : Event)
    (number : Z) (sha : string) :
  GetEvent_answer w = (event, None) ->
  pull_request event = inl (number, sha) ->
  (fetchRepoAlerts (RepositoryOwner w) (RepositoryName w) w).1 = ([], None) ->
  CreateCheckRun_answer w = None ->
  (forall c h m l w', (filterBreachedAlerts [] c h m l w').1 = [])
  /\ ((CheckRunOnly.Run a w).1 = None
      /\ exists opts,
           published (CheckRunOnly.Run a w).2
           = published w
             ++ [Checks_CreateCheckRun (RepositoryOwner w) (RepositoryName w)
                   opts]
           /\ Conclusion opts = Some "success")
  /\ (CreateReview_answer w = None ->
      (WithReview.Run a w).1 = None
      /\ exists opts,
           published (WithReview.Run a w).2
           = published w
             ++ [PullRequests_CreateReview (RepositoryOwner w)
                   (RepositoryName w) number WithReview.approve;
                 Checks_CreateCheckRun (RepositoryOwner w) (RepositoryName w)
                   opts]
           /\ Conclusion opts = Some "success").
Proof.
  intros Hevent Hpr Hfetch Hcheck.
  rewrite fetchRepoAlerts_fetched in Hfetch; simpl in Hfetch.
  split; [done|]. split.
  - unfold CheckRunOnly.Run. run_to_fetch. rewrite Hfetch; simpl.
    run_publish. split; [done|].
    eexists. split.
    + unfold published; simpl.
      rewrite !List.filter_app, fetch_effects_no_publication; simpl.
      rewrite !app_nil_r. reflexivity.
    + reflexivity.
  - intros Hreview.
    unfold WithReview.Run. run_to_fetch. rewrite Hfetch; simpl.
    run_publish. rewrite Hreview; simpl. split; [done|].
    eexists. split.
    + unfold published; simpl.
      rewrite !List.filter_app, fetch_effects_no_publication; simpl.
      rewrite !app_nil_r, <- ?app_assoc. reflexivity.
    + reflexivity.
Qed.

Lemma fetched_error w l e :
  fetched w = (l, Some e) -> l = [] /\ disabled e = false.
Proof.
  unfold fetched, fatal.
  destruct (CodeScanning_answer w) as [cs [e1|]];
    destruct (Dependabot_answer w) as [dep [e2|]];
    destruct (SecretScanning_answer w) as [ss [e3|]]; simpl;
    repeat match goal with
           | |- context [negb (disabled ?x)] =>
               destruct (disabled x) eqn:?; simpl
           end;
    intros [= <- <-] || intros [= <-]; auto.
Qed.

(** C6: a listing call that fails with an error [isDisabledError] accepts
    contributes no alerts and fetching goes on as if the call had returned
    nothing; the first call to fail with any other error makes
    [fetchRepoAlerts] return that error and no alerts, and the run returns
    the error without publishing. *)
Theorem fetchRepoAlerts_errors (w : World) (owner name : string) :
  (forall w' e, disabled e = true ->
     CodeScanning_answer w = ([], Some e) ->
     CodeScanning_answer w' = ([], None) ->
     Dependabot_answer w' = Dependabot_answer w ->
     SecretScanning_answer w' = SecretScanning_answer w ->
     (fetchRepoAlerts owner name w).1 = (fetchRepoAlerts owner name w').1)
  /\ (forall w' e, disabled e = true ->
     Dependabot_answer w = ([], Some e) ->
     Dependabot_answer w' = ([], None) ->
     CodeScanning_answer w' = CodeScanning_answer w ->
     SecretScanning_answer w' = SecretScanning_answer w ->
     (fetchRepoAlerts owner name w).1 = (fetchRepoAlerts owner name w').1)
  /\ (forall w' e, disabled e = true ->
     SecretScanning_answer w = ([], Some e) ->
     SecretScanning_answer w' = ([], None) ->
     CodeScanning_answer w' = CodeScanning_answer w ->
     Dependabot_answer w' = Dependabot_answer w ->
     (fetchRepoAlerts owner name w).1 = (fetchRepoAlerts owner name w').1)
  /\ (forall l e, disabled e = false ->
     CodeScanning_answer w = (l, Some e) ->
     (fetchRepoAlerts owner name w).1 = ([], Some e))
  /\ (forall l e, disabled e = false ->
     fatal (CodeScanning_answer w).2 = false ->
     Dependabot_answer w = (l, Some e) ->
     (fetchRepoAlerts owner name w).1 = ([], Some e))
  /\ (forall l e, disabled e = false ->
     fatal (CodeScanning_answer w).2 = false ->
     fatal (Dependabot_answer w).2 = false ->
     SecretScanning_answer w = (l, Some e) ->
     (fetchRepoAlerts owner name w).1 = ([], Some e))
  /\ (forall a event number sha l e,
     GetEvent_answer w = (event, None) ->
     pull_request event = inl (number, sha) ->
     (fetchRepoAlerts (RepositoryOwner w) (RepositoryName w) w).1
     = (l, Some e) ->
     l = [] /\ disabled e = false
     /\ (CheckRunOnly.Run a w).1 = Some e
     /\ published (CheckRunOnly.Run a w).2 = published w
     /\ (WithReview.Run a w).1 = Some e
     /\ published (WithReview.Run a w).2 = published w).
Proof.
  assert (Hresult : (fetchRepoAlerts owner name w).1 = fetched w)
    by by rewrite fetchRepoAlerts_fetched.
  rewrite Hresult. unfold fetched at 1 2 3 4 5 6.
  split; [|split; [|split; [|split; [|split; [|split]]]]].
  - intros w' e He H1 H1' H2 H3.
    rewrite fetchRepoAlerts_fetched; simpl. unfold fetched.
    rewrite H1, H1', H2, H3; simpl. by rewrite He.
  - intros w' e He H2 H2' H1 H3.
    rewrite fetchRepoAlerts_fetched; simpl. unfold fetched.
    rewrite H2, H2', H1, H3; simpl. by rewrite He.
  - intros w' e He H3 H3' H1 H2.
    rewrite fetchRepoAlerts_fetched; simpl. unfold fetched.
    rewrite H3, H3', H1, H2; simpl. by rewrite He.
  - intros l e He H1. rewrite H1; simpl. by rewrite He.
  - intros l e He Hcs H2. rewrite Hcs, H2; simpl. by rewrite He.
  - intros l e He Hcs Hdep H3. rewrite Hcs, Hdep, H3; simpl. by rewrite He.
  - intros a event number sha l e Hevent Hpr Hfetch.
    rewrite fetchRepoAlerts_fetched in Hfetch; simpl in Hfetch.
    destruct (fetched_error _ _ _ Hfetch) as [-> He].
    assert (Hquiet : forall es : list Effect,
              List.filter is_publication
                ((trace w ++ es)
                 ++ fetch_effects (RepositoryOwner w) (RepositoryName w) w)
              = published w ++ List.filter is_publication es).
    { intros es. rewrite !List.filter_app, fetch_effects_no_publication.
      by rewrite app_nil_r. }
    repeat split; [done|..].
    + unfold CheckRunOnly.Run. run_to_fetch. by rewrite Hfetch.
    + unfold CheckRunOnly.Run. run_to_fetch. rewrite Hfetch; simpl.
      unfold published at 1; simpl. rewrite Hquiet; simpl.
      by rewrite app_nil_r.
    + unfold WithReview.Run. run_to_fetch. by rewrite Hfetch.
    + unfold WithReview.Run. run_to_fetch. rewrite Hfetch; simpl.
      unfold published at 1; simpl. rewrite Hquiet; simpl.
      by rewrite app_nil_r.
Qed.

(** C7 as amended: each of the four thresholds is the day count times 24
    hours reduced to 64 bits, which is the day count times 24 hours itself
    whenever the day count is between -106751 and 106751. *)
Theorem thresholds_of_days (a : Action) :
  (fits (Critical a) -> criticalThreshold a = Critical a * (24 * Hour))
  /\ (fits (High a) -> highThreshold a = High a * (24 * Hour))
  /\ (fits (Medium a) -> mediumThreshold a = Medium a * (24 * Hour))
  /\ (fits (Low a) -> lowThreshold a = Low a * (24 * Hour))
  /\ criticalThreshold a = wrap64 (Critical a * (24 * Hour))
  /\ highThreshold a = wrap64 (High a * (24 * Hour))
  /\ mediumThreshold a = wrap64 (Medium a * (24 * Hour))
  /\ lowThreshold a = wrap64 (Low a * (24 * Hour)).
Proof.
  assert (Hwrap : forall days,
            wrap64 (wrap64 (days * 24) * Hour) = wrap64 (days * (24 * Hour))).
  { intros days. rewrite wrap64_mul_l. f_equal. lia. }
  assert (Hfits : forall days, fits days ->
            wrap64 (wrap64 (days * 24) * Hour) = days * (24 * Hour)).
  { intros days Hdays. rewrite Hwrap. apply wrap64_small.
    unfold fits in Hdays.
    unfold Hour, Minute, Second, Millisecond, Microsecond, Nanosecond. lia. }
  unfold criticalThreshold, highThreshold, mediumThreshold, lowThreshold.
  repeat split; auto.
Qed.

(** ** The claims that fail as stated *)

(** C7 fails beyond 106751 days: the threshold of 106752 days is negative. *)
Lemma criticalThreshold_overflows :
  criticalThreshold
    {| Token := "token"; Critical := 106752; High := 7; Medium := 30;
       Low := 90 |}
  <> 106752 * (24 * Hour)
  /\ criticalThreshold
       {| Token := "token"; Critical := 106752; High := 7; Medium := 30;
          Low := 90 |} < 0.
Proof. vm_compute. split; [discriminate|reflexivity]. Qed.

(** C8 fails as stated: the same alert list and the same thresholds give
    different results at different times. *)
Lemma filterBreachedAlerts_two_runs_differ :
  (filterBreachedAlerts [sample_alert "Dependabot" "high" 0]
     (7 * Day) (7 * Day) (7 * Day) (7 * Day)
     (quiet sample_event (5 * Day))).1
  <> (filterBreachedAlerts [sample_alert "Dependabot" "high" 0]
        (7 * Day) (7 * Day) (7 * Day) (7 * Day)
        (quiet sample_event (8 * Day))).1.
Proof. vm_compute. discriminate. Qed.

(** ** The theorems at sample inputs *)

Lemma Run_no_alerts_witness :
  (CheckRunOnly.Run sample_action (quiet sample_event 0)).1 = None
  /\ (WithReview.Run sample_action (quiet sample_event 0)).1 = None.
Proof.
  pose proof (Run_no_alerts sample_action (quiet sample_event 0)
                sample_event 1 "abc" eq_refl eq_refl eq_refl eq_refl)
    as (_ & (H1 & _) & H2).
  split; [exact H1|]. apply H2. reflexivity.
Defined.

Lemma filterBreachedAlerts_all_within_witness :
  (filterBreachedAlerts
     [sample_alert "CodeScanning" "warning" 0;
      sample_alert "SecretScanning" "critical" 0]
     (2 * Day) (7 * Day) (30 * Day) (90 * Day)
     (quiet sample_event (1 * Day))).1 = [].
Proof.
  apply filterBreachedAlerts_all_within.
  intros [|[|i]] a H; simpl in H; try discriminate;
    injection H as <-; vm_compute; repeat split; discriminate.
Defined.

Lemma filterBreachedAlerts_older_than_max_witness :
  sample_alert "Dependabot" "low" 0
  ∈ (filterBreachedAlerts [sample_alert "Dependabot" "low" 0]
       (1 * Day) (7 * Day) (30 * Day) (90 * Day)
       (quiet sample_event (100 * Day))).1.
Proof.
  apply (filterBreachedAlerts_older_than_max _ _ _ _ _ _ 0%nat).
  - reflexivity.
  - vm_compute. reflexivity.
Defined.

Lemma fetchRepoAlerts_errors_witness :
  (fetchRepoAlerts "o" "r"
     (answering
        ([], Some (ErrorResponse "Advanced Security must be enabled; it is disabled"))
        ([{| dep_Severity := "high"; dep_HTMLURL := "u"; dep_CreatedAt := 0 |}],
         None)
        ([], None) 0)).1
  = (fetchRepoAlerts "o" "r"
       (answering ([], None)
          ([{| dep_Severity := "high"; dep_HTMLURL := "u";
               dep_CreatedAt := 0 |}], None)
          ([], None) 0)).1
  /\ (fetchRepoAlerts "o" "r"
        (answering ([], None) ([], None)
           ([], Some (otherError "connection reset")) 0)).1
     = ([], Some (otherError "connection reset")).
Proof.
  split.
  - pose proof (fetchRepoAlerts_errors
                  (answering
                     ([], Some (ErrorResponse
                        "Advanced Security must be enabled; it is disabled"))
                     ([{| dep_Severity := "high"; dep_HTMLURL := "u";
                          dep_CreatedAt := 0 |}], None)
                     ([], None) 0) "o" "r") as (H & _).
    apply (H _ (ErrorResponse
                  "Advanced Security must be enabled; it is disabled"));
      reflexivity.
  - pose proof (fetchRepoAlerts_errors
                  (answering ([], None) ([], None)
                     ([], Some (otherError "connection reset")) 0) "o" "r")
      as (_ & _ & _ & _ & _ & H & _).
    apply (H []); reflexivity.
Defined.

Lemma thresholds_of_days_witness :
  criticalThreshold sample_action = 1 * (24 * Hour)
  /\ lowThreshold sample_action = 90 * (24 * Hour).
Proof.
  pose proof (thresholds_of_days sample_action) as (Hc & _ & _ & Hl & _).
  split; [apply Hc|apply Hl]; unfold fits; simpl; lia.
Defined.

Lemma filterBreachedAlerts_clock_only_witness :
  (filterBreachedAlerts [sample_alert "Dependabot" "high" 0]
     (7 * Day) (7 * Day) (7 * Day) (7 * Day)
     (quiet sample_event (8 * Day))).1
  = (filterBreachedAlerts [sample_alert "Dependabot" "high" 0]
       (7 * Day) (7 * Day) (7 * Day) (7 * Day)
       (quiet (OtherEvent "*github.PushEvent") (8 * Day))).1.
Proof.
  apply filterBreachedAlerts_clock_only. intros i _. reflexivity.
Defined.

Lemma filterBreachedAlerts_threshold_order_witness :
  filterBreachedAlerts [sample_alert "Dependabot" "high" 0]
    (1 * Day) (7 * Day) (30 * Day) (90 * Day) (quiet sample_event (2 * Day))
  = filterBreachedAlerts [sample_alert "Dependabot" "high" 0]
      (90 * Day) (30 * Day) (7 * Day) (1 * Day) (quiet sample_event (2 * Day)).
Proof.
  apply filterBreachedAlerts_threshold_order.
  apply (Permutation_rev [1 * Day; 7 * Day; 30 * Day; 90 * Day]).
Defined.


(** * Further properties of the code *)

(** ** [strings.Contains] and [isDisabledError] *)

Lemma prefix_append (s1 s2 : string) :
  String.prefix s1 s2 = true <-> exists post, s2 = (s1 ++ post)%string.
Proof.
  revert s2. induction s1 as [|c s1 IH]; intros s2.
  - destruct s2; simpl; split; eauto.
  - destruct s2 as [|c2 s2]; simpl.
    + split; [discriminate|]. intros [post H]. discriminate.
    + destruct (ascii_dec c c2) as [->|Hne].
      * rewrite IH. split; intros [post H]; exists post; congruence.
      * split; [discriminate|]. intros [post H]. congruence.
Qed.

Lemma strings_Contains_substring (s substr : string) :
  strings_Contains s substr = true
  <-> exists pre post, s = (pre ++ substr ++ post)%string.
Proof.
  induction s as [|c s IH]; cbn [strings_Contains].
  - rewrite orb_false_r, prefix_append. split.
    + intros [post H]. by exists EmptyString, post.
    + intros ([|c pre] & post & H); [by exists post|discriminate].
  - rewrite orb_true_iff, prefix_append, IH. split.
    + intros [[post H]|(pre & post & H)].
      * by exists EmptyString, post.
      * exists (String c pre), post. simpl. by rewrite H.
    + intros ([|c' pre] & post & H).
      * left. by exists post.
      * right. exists pre, post. simpl in H. congruence.
Qed.

(** X1: [isDisabledError] returns true exactly for an API error response
    whose message has "disabled" as a substring; it then logs one warning
    carrying the message, and otherwise has no effect at all. *)
Theorem isDisabledError_substring (err : error) (w : World) :
  ((isDisabledError err w).1 = true
   <-> exists pre post,
         err = ErrorResponse (pre ++ "disabled" ++ post)%string)
  /\ ((isDisabledError err w).1 = false -> (isDisabledError err w).2 = w)
  /\ (forall Message, err = ErrorResponse Message ->
        (isDisabledError err w).1 = true ->
        (isDisabledError err w).2
        = set_trace
            (trace w
             ++ [Logged LevelWarn "Security feature disabled"
                   [slog_String "error" Message]]) w).
Proof.
  destruct err as [Message|text]; simpl.
  - destruct (strings_Contains Message "disabled") eqn:Hc;
      unfold bind, slog, perform, ret; simpl.
    + apply strings_Contains_substring in Hc as (pre & post & ->).
      repeat split; eauto; try discriminate.
      by intros ? [= <-] _.
    + repeat split; try discriminate.
      intros (pre & post & [= ->]).
      assert (strings_Contains (pre ++ "disabled" ++ post) "disabled" = true)
        by (apply strings_Contains_substring; eauto).
      simpl in H. congruence.
  - unfold ret; simpl. repeat split; try discriminate.
    by intros (? & ? & ?).
Qed.

Lemma isDisabledError_substring_witness :
  (isDisabledError
     (ErrorResponse "Dependabot alerts are disabled for this repository.")
     (quiet sample_event 0)).2
  = set_trace
      [Logged LevelWarn "Security feature disabled"
         [slog_String "error"
            "Dependabot alerts are disabled for this repository."]]
      (quiet sample_event 0)
  /\ (isDisabledError (otherError "feature disabled") (quiet sample_event 0)).2
     = quiet sample_event 0.
Proof.
  split.
  - exact (proj2 (proj2 (isDisabledError_substring
             (ErrorResponse
                "Dependabot alerts are disabled for this repository.")
             (quiet sample_event 0))) _ eq_refl eq_refl).
  - exact (proj1 (proj2 (isDisabledError_substring
             (otherError "feature disabled") (quiet sample_event 0)))
             eq_refl).
Defined.

(** ** [fetchRepoAlerts] when no call stops it *)

(** X2: when none of the three listing calls fails with an error other than
    a disabled feature, [fetchRepoAlerts] returns no error and the alerts of
    code scanning, then Dependabot, then secret scanning, each source in the
    order the API returned them. *)
Theorem fetchRepoAlerts_in_order (w : World) (owner name : string) :
  fatal (CodeScanning_answer w).2 = false ->
  fatal (Dependabot_answer w).2 = false ->
  fatal (SecretScanning_answer w).2 = false ->
  (fetchRepoAlerts owner name w).1
  = (map of_CodeScanning (CodeScanning_answer w).1
     ++ map of_Dependabot (Dependabot_answer w).1
     ++ map of_SecretScanning (SecretScanning_answer w).1, None).
Proof.
  intros H1 H2 H3. rewrite fetchRepoAlerts_fetched; simpl.
  unfold fetched. by rewrite H1, H2, H3.
Qed.

Lemma fetchRepoAlerts_in_order_witness :
  (fetchRepoAlerts "o" "r"
     (answering
        ([{| cs_RuleSeverity := "warning"; cs_HTMLURL := "c";
             cs_CreatedAt := 1 |}], None)
        ([], Some (ErrorResponse "Dependabot alerts are disabled"))
        ([{| ss_HTMLURL := "s"; ss_CreatedAt := 2 |}], None) 5)).1
  = ([{| Kind := "CodeScanning"; Severity := "warning"; Link := "c";
         CreatedAt := 1 |};
      {| Kind := "SecretScanning"; Severity := "critical"; Link := "s";
         CreatedAt := 2 |}], None).
Proof.
  exact (fetchRepoAlerts_in_order
           (answering
              ([{| cs_RuleSeverity := "warning"; cs_HTMLURL := "c";
                   cs_CreatedAt := 1 |}], None)
              ([], Some (ErrorResponse "Dependabot alerts are disabled"))
              ([{| ss_HTMLURL := "s"; ss_CreatedAt := 2 |}], None) 5)
           "o" "r" eq_refl eq_refl eq_refl).
Defined.

(** X3: every alert [fetchRepoAlerts] returns has one of the three kinds, and
    an alert of kind "SecretScanning" always has severity "critical",
    whatever the API said. *)
Theorem fetchRepoAlerts_kinds (w : World) (owner name : string) (a : Alert) :
  a ∈ (fetchRepoAlerts owner name w).1.1 ->
  (Kind a = "CodeScanning" \/ Kind a = "Dependabot"
   \/ Kind a = "SecretScanning")
  /\ (Kind a = "SecretScanning" -> Severity a = "critical").
Proof.
  rewrite fetchRepoAlerts_fetched; simpl. unfold fetched.
  repeat match goal with
         | |- context [if ?b then _ else _] => destruct b; simpl
         end; try by intros ?%elem_of_nil.
  rewrite !elem_of_app, !list_elem_of_fmap.
  intros [(x & -> & _)|[(x & -> & _)|(x & -> & _)]]; simpl;
    split; auto; discriminate.
Qed.

Lemma fetchRepoAlerts_kinds_witness :
  (Kind (of_SecretScanning {| ss_HTMLURL := "s"; ss_CreatedAt := 2 |})
   = "CodeScanning"
   \/ Kind (of_SecretScanning {| ss_HTMLURL := "s"; ss_CreatedAt := 2 |})
      = "Dependabot"
   \/ Kind (of_SecretScanning {| ss_HTMLURL := "s"; ss_CreatedAt := 2 |})
      = "SecretScanning")
  /\ (Kind (of_SecretScanning {| ss_HTMLURL := "s"; ss_CreatedAt := 2 |})
      = "SecretScanning" ->
      Severity (of_SecretScanning {| ss_HTMLURL := "s"; ss_CreatedAt := 2 |})
      = "critical").
Proof.
  apply (fetchRepoAlerts_kinds
           (answering ([], None) ([], None)
              ([{| ss_HTMLURL := "s"; ss_CreatedAt := 2 |}], None) 5)
           "o" "r").
  apply list_elem_of_here.
Defined.

(** X4: [fetchRepoAlerts] never reads the clock and publishes nothing; it
    asks code scanning, then Dependabot, then secret scanning, and makes no
    further request once a call has failed with an error that is not a
    disabled feature. *)
Theorem fetchRepoAlerts_requests (w : World) (owner name : string) :
  ticks (fetchRepoAlerts owner name w).2 = ticks w
  /\ published (fetchRepoAlerts owner name w).2 = published w
  /\ List.filter is_request (trace (fetchRepoAlerts owner name w).2)
     = List.filter is_request (trace w)
       ++ CodeScanning_ListAlertsForRepo owner name
          :: (if fatal (CodeScanning_answer w).2 then [] else
              Dependabot_ListRepoAlerts owner name
              :: (if fatal (Dependabot_answer w).2 then [] else
                  [SecretScanning_ListAlertsForRepo owner name])).
Proof.
  rewrite fetchRepoAlerts_fetched; simpl. split; [done|]. split.
  - unfold published; simpl.
    by rewrite List.filter_app, fetch_effects_no_publication, app_nil_r.
  - rewrite List.filter_app. f_equal.
    assert (Hwarn : forall err, List.filter is_request (warning err) = []).
    { intros [[Message|text]|]; simpl; [|done..].
      by destruct (strings_Contains Message "disabled"). }
    unfold fetch_effects; simpl. rewrite List.filter_app, Hwarn; simpl.
    destruct (fatal (CodeScanning_answer w).2); simpl; [done|].
    rewrite List.filter_app, Hwarn; simpl.
    destruct (fatal (Dependabot_answer w).2); simpl; [done|].
    by rewrite Hwarn.
Qed.

(** ** More on the loop of [filterBreachedAlerts] *)

Lemma Sub_mono t t' u : t <= t' -> Sub t u <= Sub t' u.
Proof.
  intros H. unfold Sub, minDuration, maxDuration.
  destruct (Z.ltb_spec (2 ^ 63 - 1) (t - u));
    destruct (Z.ltb_spec (2 ^ 63 - 1) (t' - u));
    destruct (Z.ltb_spec (t - u) (- 2 ^ 63));
    destruct (Z.ltb_spec (t' - u) (- 2 ^ 63)); lia.
Qed.

Lemma exceeds_mono s s' c h m l :
  s <= s' -> exceeds s c h m l = true -> exceeds s' c h m l = true.
Proof. rewrite !exceeds_true. lia. Qed.

Lemma kept_app clock k xs ys c h m l :
  kept clock k (xs ++ ys) c h m l
  = kept clock k xs c h m l ++ kept clock (k + length xs) ys c h m l.
Proof.
  revert k. induction xs as [|x xs IH]; intros k; simpl.
  - by rewrite Nat.add_0_r.
  - rewrite IH, Nat.add_succ_r; simpl. by destruct (exceeds _ c h m l).
Qed.

Lemma kept_all clock k alerts c h m l :
  kept clock k alerts c h m l = alerts
  <-> forall (i : nat) (a : Alert), alerts !! i = Some a ->
        exceeds (Sub (clock (k + i)%nat) (CreatedAt a)) c h m l = true.
Proof.
  revert k. induction alerts as [|b rest IH]; intros k; simpl.
  - split; [by intros _ i a|done].
  - destruct (exceeds (Sub (clock k) (CreatedAt b)) c h m l) eqn:Hb.
    + split.
      * intros [= Hrest] [|i] a Hi; simpl in Hi.
        -- injection Hi as <-. by rewrite Nat.add_0_r.
        -- rewrite Nat.add_succ_r. by apply (proj1 (IH (S k)) Hrest).
      * intros Hall. f_equal. apply IH. intros i a Hi.
        specialize (Hall (S i) a Hi). by rewrite Nat.add_succ_r in Hall.
    + split.
      * intros Heq.
        pose proof (sublist_length _ _ (kept_sublist clock (S k) rest c h m l))
          as Hlen.
        rewrite Heq in Hlen. simpl in Hlen. lia.
      * intros Hall. specialize (Hall 0%nat b eq_refl).
        rewrite Nat.add_0_r in Hall. congruence.
Qed.

Lemma kept_again clock k k' alerts c h m l :
  (forall i j : nat, (i < length alerts)%nat ->
     clock (k + i)%nat <= clock (k' + j)%nat) ->
  kept clock k' (kept clock k alerts c h m l) c h m l
  = kept clock k alerts c h m l.
Proof.
  revert k k'. induction alerts as [|a rest IH]; intros k k' H; simpl; [done|].
  destruct (exceeds (Sub (clock k) (CreatedAt a)) c h m l) eqn:Ha; simpl.
  - assert (clock k <= clock k') as Hk.
    { specialize (H 0%nat 0%nat). rewrite !Nat.add_0_r in H.
      apply H. simpl. lia. }
    rewrite (exceeds_mono _ _ _ _ _ _ (Sub_mono _ _ (CreatedAt a) Hk) Ha).
    f_equal. apply IH. intros i j Hi.
    specialize (H (S i) (S j)). rewrite !Nat.add_succ_r in H.
    apply H. simpl. lia.
  - apply IH. intros i j Hi.
    specialize (H (S i) j). rewrite Nat.add_succ_r in H.
    apply H. simpl. lia.
Qed.

Lemma kept_weaken clock k alerts c h m l c' h' m' l' :
  (forall s, exceeds s c h m l = true -> exceeds s c' h' m' l' = true) ->
  kept clock k alerts c h m l `sublist_of` kept clock k alerts c' h' m' l'.
Proof.
  intros H. revert k. induction alerts as [|a rest IH]; intros k; simpl.
  - constructor.
  - destruct (exceeds (Sub (clock k) (CreatedAt a)) c h m l) eqn:Ha.
    + rewrite (H _ Ha). constructor. apply IH.
    + destruct (exceeds _ c' h' m' l'); [constructor|]; apply IH.
Qed.

(** X5: the result of [filterBreachedAlerts] is empty exactly when the age
    of every alert is at most each of the four thresholds, and it is the
    whole input exactly when the age of every alert exceeds one of them. *)
Theorem filterBreachedAlerts_none_or_all
    (alerts : list Alert) (c h m l : Duration) (w : World) :
  ((filterBreachedAlerts alerts c h m l w).1 = []
   <-> forall (i : nat) (a : Alert), alerts !! i = Some a ->
         age w i a <= c /\ age w i a <= h /\ age w i a <= m /\ age w i a <= l)
  /\ ((filterBreachedAlerts alerts c h m l w).1 = alerts
      <-> forall (i : nat) (a : Alert), alerts !! i = Some a ->
            age w i a > c \/ age w i a > h \/ age w i a > m \/ age w i a > l).
Proof.
  split.
  - split.
    + intros Hnil i a Hi.
      assert (Hno : ~ (age w i a > c \/ age w i a > h \/ age w i a > m
                       \/ age w i a > l)); [|lia].
      intros Hage.
      assert (a ∈ (filterBreachedAlerts alerts c h m l w).1) as Hin
        by (apply elem_of_filterBreachedAlerts; eauto).
      rewrite Hnil in Hin. by apply elem_of_nil in Hin.
    + intros Hall. apply elem_of_nil_inv; intros a.
      rewrite elem_of_filterBreachedAlerts.
      intros (i & Hi & Hage). specialize (Hall i a Hi). lia.
  - rewrite filterBreachedAlerts_kept; simpl. rewrite kept_all.
    split; intros H i a Hi; apply age_exceeds; by apply H.
Qed.

(** X6: filtering a concatenation is filtering the first part and then, in
    the world the first run leaves, the second part. *)
Theorem filterBreachedAlerts_app
    (xs ys : list Alert) (c h m l : Duration) (w : World) :
  filterBreachedAlerts (xs ++ ys) c h m l w
  = ((filterBreachedAlerts xs c h m l w).1
     ++ (filterBreachedAlerts ys c h m l
           (filterBreachedAlerts xs c h m l w).2).1,
     (filterBreachedAlerts ys c h m l (filterBreachedAlerts xs c h m l w).2).2).
Proof.
  rewrite !filterBreachedAlerts_kept; simpl.
  by rewrite kept_app, length_app, Nat.add_assoc.
Qed.

(** X7: lowering the smallest of the four thresholds only adds alerts: the
    result under the higher thresholds is a sublist of the result under the
    lower ones. *)
Theorem filterBreachedAlerts_lower_thresholds
    (alerts : list Alert) (c h m l c' h' m' l' : Duration) (w : World) :
  Z.min c' (Z.min h' (Z.min m' l')) <= Z.min c (Z.min h (Z.min m l)) ->
  (filterBreachedAlerts alerts c h m l w).1
  `sublist_of` (filterBreachedAlerts alerts c' h' m' l' w).1.
Proof.
  intros Hmin. rewrite !filterBreachedAlerts_kept; simpl.
  apply kept_weaken. intros s. rewrite !exceeds_true. lia.
Qed.

Lemma filterBreachedAlerts_lower_thresholds_witness :
  (filterBreachedAlerts [sample_alert "Dependabot" "high" 0]
     (7 * Day) (7 * Day) (30 * Day) (90 * Day)
     (quiet sample_event (2 * Day))).1
  `sublist_of`
  (filterBreachedAlerts [sample_alert "Dependabot" "high" 0]
     (1 * Day) (7 * Day) (30 * Day) (90 * Day)
     (quiet sample_event (2 * Day))).1.
Proof.
  apply filterBreachedAlerts_lower_thresholds. vm_compute. discriminate.
Defined.

(** X8: when the clock never goes back, the alerts reported once are all
    reported again: filtering the result a second time, later, returns it
    unchanged. *)
Theorem filterBreachedAlerts_again
    (alerts : list Alert) (c h m l : Duration) (w : World) :
  monotone (wall w) ->
  (filterBreachedAlerts (filterBreachedAlerts alerts c h m l w).1 c h m l
     (filterBreachedAlerts alerts c h m l w).2).1
  = (filterBreachedAlerts alerts c h m l w).1.
Proof.
  intros Hmono. rewrite !filterBreachedAlerts_kept; simpl.
  apply kept_again. intros i j Hi. apply Hmono. lia.
Qed.

Lemma filterBreachedAlerts_again_witness :
  (filterBreachedAlerts
     (filterBreachedAlerts
        [sample_alert "Dependabot" "high" 0; sample_alert "Dependabot" "low" 0]
        (1 * Day) (7 * Day) (30 * Day) (90 * Day)
        (quiet sample_event (2 * Day))).1
     (1 * Day) (7 * Day) (30 * Day) (90 * Day)
     (filterBreachedAlerts
        [sample_alert "Dependabot" "high" 0; sample_alert "Dependabot" "low" 0]
        (1 * Day) (7 * Day) (30 * Day) (90 * Day)
        (quiet sample_event (2 * Day))).2).1
  = (filterBreachedAlerts
       [sample_alert "Dependabot" "high" 0; sample_alert "Dependabot" "low" 0]
       (1 * Day) (7 * Day) (30 * Day) (90 * Day)
       (quiet sample_event (2 * Day))).1.
Proof.
  apply filterBreachedAlerts_again. intros i j _. simpl. lia.
Defined.

(** X9: when one of the four thresholds is negative, every alert that is not
    dated after the moment it is examined is reported. *)
Theorem filterBreachedAlerts_negative_threshold
    (alerts : list Alert) (c h m l : Duration) (w : World) :
  Z.min c (Z.min h (Z.min m l)) < 0 ->
  (forall (i : nat) (a : Alert), alerts !! i = Some a ->
     CreatedAt a <= wall w (ticks w + i)%nat) ->
  (filterBreachedAlerts alerts c h m l w).1 = alerts.
Proof.
  intros Hneg Hpast. rewrite filterBreachedAlerts_kept; simpl.
  apply kept_all. intros i a Hi. specialize (Hpast i a Hi).
  apply exceeds_true.
  assert (0 <= Sub (wall w (ticks w + i)%nat) (CreatedAt a)); [|lia].
  unfold Sub, minDuration, maxDuration.
  destruct (Z.ltb_spec (2 ^ 63 - 1) (wall w (ticks w + i)%nat - CreatedAt a));
    [lia|].
  destruct (Z.ltb_spec (wall w (ticks w + i)%nat - CreatedAt a) (- 2 ^ 63));
    lia.
Qed.

Lemma filterBreachedAlerts_negative_threshold_witness :
  (filterBreachedAlerts [sample_alert "CodeScanning" "note" 0]
     (criticalThreshold
        {| Token := "token"; Critical := 106752; High := 7; Medium := 30;
           Low := 90 |})
     (7 * Day) (30 * Day) (90 * Day) (quiet sample_event 0)).1
  = [sample_alert "CodeScanning" "note" 0].
Proof.
  apply filterBreachedAlerts_negative_threshold.
  - vm_compute. reflexivity.
  - intros [|i] a H; simpl in H; [|discriminate].
    injection H as <-. vm_compute. discriminate.
Defined.

(** ** The run, path by path *)

Lemma fetch_effects_set_trace owner name t w :
  fetch_effects owner name (set_trace t w) = fetch_effects owner name w.
Proof. reflexivity. Qed.

Lemma fetch_effects_set_ticks owner name n w :
  fetch_effects owner name (set_ticks n w) = fetch_effects owner name w.
Proof. reflexivity. Qed.

Ltac run_fetched H :=
  let requests := fresh "requests" in
  let Hr := fresh "Hrequests" in
  match goal with
  | w : World |- _ =>
      remember (fetch_effects (RepositoryOwner w) (RepositoryName w) w)
        as requests eqn:Hr
  end;
  run_to_fetch; rewrite H;
  rewrite ?fetch_effects_set_trace, ?fetch_effects_set_ticks, <- ?Hr;
  clear Hr; simpl.

Ltac fold_breached breached :=
  repeat match goal with
         | |- context [kept ?clock ?k ?alerts ?c ?h ?m ?l] =>
             change (kept clock k alerts c h m l) with breached
         end.

Lemma set_trace_twice t t' w : set_trace t (set_trace t' w) = set_trace t w.
Proof. reflexivity. Qed.

Lemma set_ticks_set_trace n t w :
  set_ticks n (set_trace t w) = set_trace t (set_ticks n w).
Proof. reflexivity. Qed.

Ltac same_world :=
  repeat (rewrite set_ticks_set_trace || rewrite set_trace_twice
          || rewrite set_ticks_twice);
  rewrite ?Nat.add_0_r, <- ?app_assoc; simpl; reflexivity.

Lemma CheckRunOnly_Run_fetched a w event number sha alerts :
  GetEvent_answer w = (event, None) ->
  pull_request event = inl (number, sha) ->
  fetched w = (alerts, None) ->
  CheckRunOnly.Run a w
  = (CreateCheckRun_answer w,
     set_trace
       (trace w
        ++ [Logged LevelDebug "Configuration"
              [slog_DurationString "critical" (criticalThreshold a);
               slog_DurationString "high" (highThreshold a);
               slog_DurationString "medium" (mediumThreshold a);
               slog_DurationString "low" (lowThreshold a)]]
        ++ fetch_effects (RepositoryOwner w) (RepositoryName w) w
        ++ match alerts with
           | [] => []
           | _ =>
               [Logged LevelInfo "Alerts found"
                  [slog_Int "total" (len alerts);
                   slog_Int "breached"
                     (len (kept (wall w) (S (ticks w)) alerts
                             (criticalThreshold a) (highThreshold a)
                             (mediumThreshold a) (lowThreshold a)))]]
           end
        ++ [Checks_CreateCheckRun (RepositoryOwner w) (RepositoryName w)
              (let checkRunOpts :=
                 {| Name := CheckRunOnly.checkRunName; HeadSHA := sha;
                    Status := Some "completed"; Conclusion := None;
                    StartedAt := Some (wall w (ticks w));
                    CompletedAt := None; Output := None |} in
               let now := wall w (S (ticks w) + length alerts) in
               match kept (wall w) (S (ticks w)) alerts
                       (criticalThreshold a) (highThreshold a)
                       (mediumThreshold a) (lowThreshold a) with
               | [] =>
                   CheckRunOnly.completed checkRunOpts now "success"
                     checkRunSuccessTitle checkRunSuccessText
               | b :: bs =>
                   CheckRunOnly.completed checkRunOpts now "failure"
                     (Sprintf_checkRunFailureTitle (len (b :: bs)))
                     (Sprintf_checkRunFailureText (len (b :: bs))
                        (len alerts))
               end)])
       (set_ticks (S (S (ticks w)) + length alerts) w)).
Proof.
  intros Hevent Hpr Hfetch.
  set (breached := kept (wall w) (S (ticks w)) alerts (criticalThreshold a)
                     (highThreshold a) (mediumThreshold a) (lowThreshold a)).
  unfold CheckRunOnly.Run. run_fetched Hfetch.
  destruct alerts as [|x xs].
  - run_publish. f_equal. same_world.
  - change (len (x :: xs) =? 0) with false; cbv iota.
    unfold bind. rewrite filterBreachedAlerts_kept.
    fold_breached breached. clearbody breached.
    unfold log_Alerts_found, slog, perform, bind; simpl.
    destruct breached as [|b bs].
    + simpl. run_publish. f_equal. same_world.
    + change (len (b :: bs) =? 0) with false; cbv iota.
      run_publish. f_equal. same_world.
Qed.

Lemma WithReview_Run_fetched a w event number sha alerts :
  GetEvent_answer w = (event, None) ->
  pull_request event = inl (number, sha) ->
  fetched w = (alerts, None) ->
  WithReview.Run a w
  = (match CreateReview_answer w with
     | Some e => Some e
     | None => CreateCheckRun_answer w
     end,
     set_trace
       (trace w
        ++ [Logged LevelDebug "Configuration"
              [slog_DurationString "critical" (criticalThreshold a);
               slog_DurationString "high" (highThreshold a);
               slog_DurationString "medium" (mediumThreshold a);
               slog_DurationString "low" (lowThreshold a)]]
        ++ fetch_effects (RepositoryOwner w) (RepositoryName w) w
        ++ match alerts with
           | [] => []
           | _ =>
               [Logged LevelInfo "Alerts found"
                  [slog_Int "total" (len alerts);
                   slog_Int "breached"
                     (len (kept (wall w) (S (ticks w)) alerts
                             (criticalThreshold a) (highThreshold a)
                             (mediumThreshold a) (lowThreshold a)))]]
           end
        ++ [PullRequests_CreateReview (RepositoryOwner w) (RepositoryName w)
              number
              match kept (wall w) (S (ticks w)) alerts
                      (criticalThreshold a) (highThreshold a)
                      (mediumThreshold a) (lowThreshold a) with
              | [] => WithReview.approve
              | b :: bs =>
                  WithReview.request_changes
                    (Sprintf_checkRunFailureText (len (b :: bs)) (len alerts))
              end]
        ++ match CreateReview_answer w with
           | Some _ => []
           | None =>
               [Checks_CreateCheckRun (RepositoryOwner w) (RepositoryName w)
                  (let now := wall w (S (ticks w) + length alerts) in
                   match kept (wall w) (S (ticks w)) alerts
                           (criticalThreshold a) (highThreshold a)
                           (mediumThreshold a) (lowThreshold a) with
                   | [] =>
                       WithReview.check_run sha (wall w (ticks w)) now
                         "success" checkRunSuccessTitle checkRunFailureText
                   | b :: bs =>
                       WithReview.check_run sha (wall w (ticks w)) now
                         "failure"
                         (Sprintf_checkRunFailureTitle (len (b :: bs)))
                         (Sprintf_checkRunFailureText (len (b :: bs))
                            (len alerts))
                   end)]
           end)
       (set_ticks
          (match CreateReview_answer w with
           | Some _ => S (ticks w) + length alerts
           | None => S (S (ticks w)) + length alerts
           end)%nat w)).
Proof.
  intros Hevent Hpr Hfetch.
  set (breached := kept (wall w) (S (ticks w)) alerts (criticalThreshold a)
                     (highThreshold a) (mediumThreshold a) (lowThreshold a)).
  unfold WithReview.Run. run_fetched Hfetch.
  destruct alerts as [|x xs].
  - run_publish. destruct (CreateReview_answer w); simpl;
      f_equal; same_world.
  - change (len (x :: xs) =? 0) with false; cbv iota.
    unfold bind. rewrite filterBreachedAlerts_kept.
    fold_breached breached. clearbody breached.
    unfold log_Alerts_found, slog, perform, bind; simpl.
    destruct breached as [|b bs].
    + simpl. run_publish. destruct (CreateReview_answer w); simpl;
        f_equal; same_world.
    + change (len (b :: bs) =? 0) with false; cbv iota.
      run_publish. destruct (CreateReview_answer w); simpl;
        f_equal; same_world.
Qed.

Lemma fetched_result owner name w :
  (fetchRepoAlerts owner name w).1 = fetched w.
Proof. by rewrite fetchRepoAlerts_fetched. Qed.

Lemma kept_after_start a w alerts :
  (filterBreachedAlerts alerts (criticalThreshold a) (highThreshold a)
     (mediumThreshold a) (lowThreshold a) (set_ticks (S (ticks w)) w)).1
  = kept (wall w) (S (ticks w)) alerts (criticalThreshold a) (highThreshold a)
      (mediumThreshold a) (lowThreshold a).
Proof. by rewrite filterBreachedAlerts_kept. Qed.

Ltac publications :=
  unfold published; cbn [trace set_trace snd fst];
  rewrite ?List.filter_app, ?fetch_effects_no_publication;
  repeat match goal with
         | |- context [List.filter is_publication
                         match ?x with _ => _ end] => destruct x
         end;
  cbn [List.filter is_publication app]; rewrite ?app_nil_r.

(** X10: when the event cannot be read, the run returns that error at once:
    no request is made, nothing is logged or published (the version that
    reviews has only read the clock for its start time). *)
Theorem Run_GetEvent_error (a : Action) (w : World) (event : Event)
    (e : error) :
  GetEvent_answer w = (event, Some e) ->
  CheckRunOnly.Run a w = (Some e, w)
  /\ WithReview.Run a w = (Some e, set_ticks (S (ticks w)) w).
Proof.
  intros Hevent. split.
  - unfold CheckRunOnly.Run, bind, action_GetEvent, ask. by rewrite Hevent.
  - unfold WithReview.Run, bind, action_GetEvent, ask, time_Now; simpl.
    by rewrite Hevent.
Qed.

Lemma Run_GetEvent_error_witness :
  CheckRunOnly.Run sample_action
    (with_answers (OtherEvent "", Some (otherError "no event payload"))
       None None 0)
  = (Some (otherError "no event payload"),
     with_answers (OtherEvent "", Some (otherError "no event payload"))
       None None 0).
Proof.
  exact (proj1 (Run_GetEvent_error sample_action
                  (with_answers
                     (OtherEvent "", Some (otherError "no event payload"))
                     None None 0)
                  (OtherEvent "") (otherError "no event payload") eq_refl)).
Defined.

(** X11: an event that is neither a pull request nor a pull-request-target
    event makes the run return "unexpected event type: T" before any request
    is made: nothing is logged, fetched or published. *)
Theorem Run_unexpected_event (a : Action) (w : World) (typeName : string) :
  GetEvent_answer w = (OtherEvent typeName, None) ->
  (CheckRunOnly.Run a w).1
  = Some (otherError ("unexpected event type: " ++ typeName)%string)
  /\ trace (CheckRunOnly.Run a w).2 = trace w
  /\ (WithReview.Run a w).1
     = Some (otherError ("unexpected event type: " ++ typeName)%string)
  /\ trace (WithReview.Run a w).2 = trace w.
Proof.
  intros Hevent.
  unfold CheckRunOnly.Run, WithReview.Run, bind, action_GetEvent, ask,
    time_Now; simpl.
  by rewrite Hevent.
Qed.

Lemma Run_unexpected_event_witness :
  (CheckRunOnly.Run sample_action
     (with_answers (OtherEvent "*github.PushEvent", None) None None 0)).1
  = Some (otherError "unexpected event type: *github.PushEvent").
Proof.
  exact (proj1 (Run_unexpected_event sample_action
                  (with_answers (OtherEvent "*github.PushEvent", None)
                     None None 0)
                  "*github.PushEvent" eq_refl)).
Defined.

(** X12: with a pull-request event and a fetch without error, the run of
    [src/main.go] publishes exactly one check run, named "Security SLA", for
    the head commit of the pull request, and returns what creating it
    returned.  The conclusion is "success" when [filterBreachedAlerts]
    reports nothing and "failure" otherwise, with the number of reported
    alerts and the number of alerts in the title and summary. *)
Theorem CheckRunOnly_Run_verdict (a : Action) (w : World) (event : Event)
    (number : Z) (sha : string) (alerts : list Alert) :
  GetEvent_answer w = (event, None) ->
  pull_request event = inl (number, sha) ->
  (fetchRepoAlerts (RepositoryOwner w) (RepositoryName w) w).1
  = (alerts, None) ->
  let breached :=
    (filterBreachedAlerts alerts (criticalThreshold a) (highThreshold a)
       (mediumThreshold a) (lowThreshold a) (set_ticks (S (ticks w)) w)).1 in
  (CheckRunOnly.Run a w).1 = CreateCheckRun_answer w
  /\ exists opts,
       published (CheckRunOnly.Run a w).2
       = published w
         ++ [Checks_CreateCheckRun (RepositoryOwner w) (RepositoryName w) opts]
       /\ Name opts = "Security SLA"
       /\ HeadSHA opts = sha
       /\ Status opts = Some "completed"
       /\ (breached = [] ->
           Conclusion opts = Some "success"
           /\ Output opts
              = Some {| Title := Some "No security SLA breaches found";
                        Summary :=
                          Some "All security alerts are within the security SLA." |})
       /\ (breached <> [] ->
           Conclusion opts = Some "failure"
           /\ Output opts
              = Some {| Title :=
                          Some (Sprintf_checkRunFailureTitle (len breached));
                        Summary :=
                          Some (Sprintf_checkRunFailureText (len breached)
                                  (len alerts)) |}).
Proof.
  intros Hevent Hpr Hfetch breached. subst breached.
  rewrite fetched_result in Hfetch. rewrite kept_after_start.
  rewrite (CheckRunOnly_Run_fetched a w event number sha alerts) by done.
  split; [done|]. eexists. split; [|].
  - publications; reflexivity.
  - simpl.
    destruct (kept (wall w) (S (ticks w)) alerts _ _ _ _) as [|b bs];
      repeat split; intros; congruence.
Qed.

Lemma CheckRunOnly_Run_verdict_witness :
  (CheckRunOnly.Run sample_action
     (answering ([], None)
        ([{| dep_Severity := "high"; dep_HTMLURL := "u";
             dep_CreatedAt := 0 |}], None)
        ([], None) (3 * Day))).1 = None.
Proof.
  exact (proj1 (CheckRunOnly_Run_verdict sample_action
                  (answering ([], None)
                     ([{| dep_Severity := "high"; dep_HTMLURL := "u";
                          dep_CreatedAt := 0 |}], None)
                     ([], None) (3 * Day))
                  sample_event 1 "abc"
                  [{| Kind := "Dependabot"; Severity := "high"; Link := "u";
                      CreatedAt := 0 |}]
                  eq_refl eq_refl eq_refl)).
Defined.

(** X13: with a pull-request event, a fetch without error and a review that
    is accepted, the run of the version that reviews publishes the review
    and then one check run for the head commit, and returns what creating
    the check run returned.  When [filterBreachedAlerts] reports nothing the
    review approves and the conclusion is "success" (the summary being the
    failure template with its verbs unfilled); otherwise the review requests
    changes with the same text as the summary, and the conclusion is
    "failure". *)
Theorem WithReview_Run_verdict (a : Action) (w : World) (event : Event)
    (number : Z) (sha : string) (alerts : list Alert) :
  GetEvent_answer w = (event, None) ->
  pull_request event = inl (number, sha) ->
  (fetchRepoAlerts (RepositoryOwner w) (RepositoryName w) w).1
  = (alerts, None) ->
  CreateReview_answer w = None ->
  let breached :=
    (filterBreachedAlerts alerts (criticalThreshold a) (highThreshold a)
       (mediumThreshold a) (lowThreshold a) (set_ticks (S (ticks w)) w)).1 in
  (WithReview.Run a w).1 = CreateCheckRun_answer w
  /\ exists review opts,
       published (WithReview.Run a w).2
       = published w
         ++ [PullRequests_CreateReview (RepositoryOwner w) (RepositoryName w)
               number review;
             Checks_CreateCheckRun (RepositoryOwner w) (RepositoryName w) opts]
       /\ Name opts = "enforce-security-sla-action"
       /\ HeadSHA opts = sha
       /\ Status opts = Some "completed"
       /\ (breached = [] ->
           review = {| Body := None; ReviewEvent := Some "APPROVE" |}
           /\ Conclusion opts = Some "success"
           /\ Output opts
              = Some {| Title := Some "No security SLA breaches found";
                        Summary :=
                          Some "Found %d out of %d security alerts breaching security SLA." |})
       /\ (breached <> [] ->
           review
           = {| Body :=
                  Some (Sprintf_checkRunFailureText (len breached)
                          (len alerts));
                ReviewEvent := Some "REQUEST_CHANGES" |}
           /\ Conclusion opts = Some "failure"
           /\ Output opts
              = Some {| Title :=
                          Some (Sprintf_checkRunFailureTitle (len breached));
                        Summary :=
                          Some (Sprintf_checkRunFailureText (len breached)
                                  (len alerts)) |}).
Proof.
  intros Hevent Hpr Hfetch Hreview breached. subst breached.
  rewrite fetched_result in Hfetch. rewrite kept_after_start.
  rewrite (WithReview_Run_fetched a w event number sha alerts) by done.
  rewrite Hreview. split; [done|]. eexists. eexists. split; [|].
  - publications; reflexivity.
  - simpl.
    destruct (kept (wall w) (S (ticks w)) alerts _ _ _ _) as [|b bs];
      repeat split; intros; congruence.
Qed.

Lemma WithReview_Run_verdict_witness :
  (WithReview.Run sample_action
     (answering ([], None)
        ([{| dep_Severity := "high"; dep_HTMLURL := "u";
             dep_CreatedAt := 0 |}], None)
        ([], None) (3 * Day))).1 = None.
Proof.
  exact (proj1 (WithReview_Run_verdict sample_action
                  (answering ([], None)
                     ([{| dep_Severity := "high"; dep_HTMLURL := "u";
                          dep_CreatedAt := 0 |}], None)
                     ([], None) (3 * Day))
                  sample_event 1 "abc"
                  [{| Kind := "Dependabot"; Severity := "high"; Link := "u";
                      CreatedAt := 0 |}]
                  eq_refl eq_refl eq_refl eq_refl)).
Defined.

(** X14: in the version that reviews, when creating the review fails the run
    returns that error and publishes no check run: the review request is the
    only thing it has sent. *)
Theorem WithReview_Run_review_fails (a : Action) (w : World) (event : Event)
    (number : Z) (sha : string) (alerts : list Alert) (e : error) :
  GetEvent_answer w = (event, None) ->
  pull_request event = inl (number, sha) ->
  (fetchRepoAlerts (RepositoryOwner w) (RepositoryName w) w).1
  = (alerts, None) ->
  CreateReview_answer w = Some e ->
  (WithReview.Run a w).1 = Some e
  /\ exists review,
       published (WithReview.Run a w).2
       = published w
         ++ [PullRequests_CreateReview (RepositoryOwner w) (RepositoryName w)
               number review].
Proof.
  intros Hevent Hpr Hfetch Hreview.
  rewrite fetched_result in Hfetch.
  rewrite (WithReview_Run_fetched a w event number sha alerts) by done.
  rewrite Hreview. split; [done|]. eexists.
  publications; reflexivity.
Qed.

Lemma WithReview_Run_review_fails_witness :
  (WithReview.Run sample_action
     (with_answers (sample_event, None)
        (Some (ErrorResponse "Resource not accessible by integration"))
        None 0)).1
  = Some (ErrorResponse "Resource not accessible by integration").
Proof.
  exact (proj1 (WithReview_Run_review_fails sample_action
                  (with_answers (sample_event, None)
                     (Some (ErrorResponse
                              "Resource not accessible by integration"))
                     None 0)
                  sample_event 1 "abc" []
                  (ErrorResponse "Resource not accessible by integration")
                  eq_refl eq_refl eq_refl eq_refl)).
Defined.

(** X15: a run that reaches its verdict reads the clock twice, plus once per
    fetched alert when there are any; the check run it publishes last starts
    at the first of these readings and completes at the last one, so it
    never completes before it starts when the clock does not go back. *)
Theorem Run_timestamps (a : Action) (w : World) (event : Event)
    (number : Z) (sha : string) (alerts : list Alert) :
  GetEvent_answer w = (event, None) ->
  pull_request event = inl (number, sha) ->
  (fetchRepoAlerts (RepositoryOwner w) (RepositoryName w) w).1
  = (alerts, None) ->
  monotone (wall w) ->
  (ticks (CheckRunOnly.Run a w).2 = (ticks w + 2 + length alerts)%nat
   /\ exists opts started completed,
        last (trace (CheckRunOnly.Run a w).2)
        = Some (Checks_CreateCheckRun (RepositoryOwner w) (RepositoryName w)
                  opts)
        /\ StartedAt opts = Some started
        /\ CompletedAt opts = Some completed
        /\ started = wall w (ticks w)
        /\ completed = wall w (ticks w + 1 + length alerts)%nat
        /\ started <= completed)
  /\ (CreateReview_answer w = None ->
      ticks (WithReview.Run a w).2 = (ticks w + 2 + length alerts)%nat
      /\ exists opts started completed,
           last (trace (WithReview.Run a w).2)
           = Some (Checks_CreateCheckRun (RepositoryOwner w)
                     (RepositoryName w) opts)
           /\ StartedAt opts = Some started
           /\ CompletedAt opts = Some completed
           /\ started = wall w (ticks w)
           /\ completed = wall w (ticks w + 1 + length alerts)%nat
           /\ started <= completed).
Proof.
  intros Hevent Hpr Hfetch Hmono.
  rewrite fetched_result in Hfetch.
  assert (Hle : wall w (ticks w) <= wall w (ticks w + 1 + length alerts)%nat)
    by (apply Hmono; lia).
  replace (ticks w + 1 + length alerts)%nat
    with (S (ticks w) + length alerts)%nat in * by lia.
  split.
  - rewrite (CheckRunOnly_Run_fetched a w event number sha alerts) by done.
    cbn [trace ticks set_trace set_ticks snd]. split; [lia|].
    do 3 eexists. split.
    { rewrite !app_assoc. apply last_snoc. }
    cbv zeta.
    destruct (kept (wall w) (S (ticks w)) alerts _ _ _ _);
      repeat split; simpl; done.
  - intros Hreview.
    rewrite (WithReview_Run_fetched a w event number sha alerts) by done.
    rewrite Hreview. cbn [trace ticks set_trace set_ticks snd].
    split; [lia|].
    do 3 eexists. split.
    { rewrite !app_assoc. apply last_snoc. }
    cbv zeta.
    destruct (kept (wall w) (S (ticks w)) alerts _ _ _ _);
      repeat split; simpl; done.
Qed.

Lemma Run_timestamps_witness :
  ticks (CheckRunOnly.Run sample_action
           (answering ([], None)
              ([{| dep_Severity := "high"; dep_HTMLURL := "u";
                   dep_CreatedAt := 0 |}], None)
              ([], None) (3 * Day))).2
  = 3%nat.
Proof.
  refine (proj1 (proj1 (Run_timestamps sample_action
                  (answering ([], None)
                     ([{| dep_Severity := "high"; dep_HTMLURL := "u";
                          dep_CreatedAt := 0 |}], None)
                     ([], None) (3 * Day))
                  sample_event 1 "abc"
                  [{| Kind := "Dependabot"; Severity := "high"; Link := "u";
                      CreatedAt := 0 |}]
                  eq_refl eq_refl eq_refl _))).
  intros i j _. simpl. lia.
Defined.

(** X16: a repository where all three features are disabled passes: each
    listing error is taken as no alerts, and the run publishes a check run
    with conclusion "success" and returns what creating it returned. *)
Theorem Run_all_disabled (a : Action) (w : World) (event : Event)
    (number : Z) (sha : string) (e1 e2 e3 : error) :
  GetEvent_answer w = (event, None) ->
  pull_request event = inl (number, sha) ->
  CodeScanning_answer w = ([], Some e1) -> disabled e1 = true ->
  Dependabot_answer w = ([], Some e2) -> disabled e2 = true ->
  SecretScanning_answer w = ([], Some e3) -> disabled e3 = true ->
  (fetchRepoAlerts (RepositoryOwner w) (RepositoryName w) w).1 = ([], None)
  /\ (CheckRunOnly.Run a w).1 = CreateCheckRun_answer w
  /\ exists opts,
       published (CheckRunOnly.Run a w).2
       = published w
         ++ [Checks_CreateCheckRun (RepositoryOwner w) (RepositoryName w) opts]
       /\ Conclusion opts = Some "success".
Proof.
  intros Hevent Hpr H1 Hd1 H2 Hd2 H3 Hd3.
  assert (Hfetch : fetched w = ([], None)).
  { unfold fetched. rewrite H1, H2, H3; simpl. by rewrite Hd1, Hd2, Hd3. }
  rewrite fetched_result.
  rewrite (CheckRunOnly_Run_fetched a w event number sha []) by done.
  repeat split; [done|]. eexists. split.
  - publications; reflexivity.
  - reflexivity.
Qed.

Lemma Run_all_disabled_witness :
  (fetchRepoAlerts "underopsco" "enforce-security-sla-action"
     (answering
        ([], Some (ErrorResponse "Code scanning is disabled"))
        ([], Some (ErrorResponse "Dependabot alerts are disabled"))
        ([], Some (ErrorResponse "Secret scanning is disabled")) 0)).1
  = ([], None).
Proof.
  exact (proj1 (Run_all_disabled sample_action
                  (answering
                     ([], Some (ErrorResponse "Code scanning is disabled"))
                     ([], Some (ErrorResponse "Dependabot alerts are disabled"))
                     ([], Some (ErrorResponse "Secret scanning is disabled"))
                     0)
                  sample_event 1 "abc" _ _ _
                  eq_refl eq_refl eq_refl eq_refl eq_refl eq_refl eq_refl
                  eq_refl)).
Defined.

Lemma Run_fetch_error a w event number sha l e :
  GetEvent_answer w = (event, None) ->
  pull_request event = inl (number, sha) ->
  fetched w = (l, Some e) ->
  (CheckRunOnly.Run a w).1 = Some e /\ (WithReview.Run a w).1 = Some e.
Proof.
  intros Hevent Hpr Hfetch. split.
  - unfold CheckRunOnly.Run. run_to_fetch. by rewrite Hfetch.
  - unfold WithReview.Run. run_to_fetch. by rewrite Hfetch.
Qed.

(** X17: a run returns no error only after it has published its verdict: in
    [src/main.go] exactly one check run, in the version that reviews the
    review followed by one check run. *)
Theorem Run_nil_published (a : Action) (w : World) :
  ((CheckRunOnly.Run a w).1 = None ->
   exists opts,
     published (CheckRunOnly.Run a w).2
     = published w
       ++ [Checks_CreateCheckRun (RepositoryOwner w) (RepositoryName w) opts])
  /\ ((WithReview.Run a w).1 = None ->
      exists number review opts,
        published (WithReview.Run a w).2
        = published w
          ++ [PullRequests_CreateReview (RepositoryOwner w) (RepositoryName w)
                number review;
              Checks_CreateCheckRun (RepositoryOwner w) (RepositoryName w)
                opts]).
Proof.
  destruct (GetEvent_answer w) as [event [e|]] eqn:Hevent.
  { unfold CheckRunOnly.Run, WithReview.Run, bind, action_GetEvent, ask,
      time_Now; simpl.
    rewrite Hevent. split; discriminate. }
  destruct (pull_request event) as [[number sha]|typeName] eqn:Hpr.
  2:{ destruct event; try discriminate. injection Hpr as ->.
      unfold CheckRunOnly.Run, WithReview.Run, bind, action_GetEvent, ask,
        time_Now; simpl.
      rewrite Hevent. split; discriminate. }
  destruct (fetched w) as [alerts [e|]] eqn:Hfetch.
  { destruct (Run_fetch_error a w event number sha alerts e Hevent Hpr Hfetch)
      as [-> ->].
    split; discriminate. }
  rewrite (CheckRunOnly_Run_fetched a w event number sha alerts) by done.
  rewrite (WithReview_Run_fetched a w event number sha alerts) by done.
  split.
  - intros _. eexists. publications; reflexivity.
  - cbn [fst]. destruct (CreateReview_answer w) as [e|]; [discriminate|].
    intros _. do 3 eexists. publications; reflexivity.
Qed.

Lemma Run_nil_published_witness :
  exists opts,
    published (CheckRunOnly.Run sample_action (quiet sample_event 0)).2
    = published (quiet sample_event 0)
      ++ [Checks_CreateCheckRun (RepositoryOwner (quiet sample_event 0))
            (RepositoryName (quiet sample_event 0)) opts].
Proof.
  apply (proj1 (Run_nil_published sample_action (quiet sample_event 0))).
  reflexivity.
Defined.

(** ** Counts and very old alerts *)

Lemma sublist_same_length {A : Type} (l1 l2 : list A) :
  l1 `sublist_of` l2 -> length l1 = length l2 -> l1 = l2.
Proof.
  induction 1 as [|x l1 l2 Hsub IH|x l1 l2 Hsub IH]; simpl; intros Hlen.
  - done.
  - f_equal. apply IH. lia.
  - apply sublist_length in Hsub. lia.
Qed.

(** X18: [filterBreachedAlerts] never reports more alerts than it was given,
    and it reports as many as it was given only when it reports them all:
    the "n out of total" of a failure summary has n at most total. *)
Theorem filterBreachedAlerts_length
    (alerts : list Alert) (c h m l : Duration) (w : World) :
  (length (filterBreachedAlerts alerts c h m l w).1 <= length alerts)%nat
  /\ (length (filterBreachedAlerts alerts c h m l w).1 = length alerts ->
      (filterBreachedAlerts alerts c h m l w).1 = alerts).
Proof.
  rewrite filterBreachedAlerts_kept; simpl.
  pose proof (kept_sublist (wall w) (ticks w) alerts c h m l) as Hsub.
  split.
  - by apply sublist_length.
  - by apply sublist_same_length.
Qed.

Lemma filterBreachedAlerts_length_witness :
  (filterBreachedAlerts [sample_alert "Dependabot" "high" 0]
     (1 * Day) (7 * Day) (30 * Day) (90 * Day)
     (quiet sample_event (2 * Day))).1
  = [sample_alert "Dependabot" "high" 0].
Proof.
  apply (proj2 (filterBreachedAlerts_length _ _ _ _ _ _)). reflexivity.
Defined.

(** X19: the age of an alert dated more than the largest [Duration] (about
    292 years) before it is examined does not wrap around: it is that
    largest duration, and the alert is reported as soon as one threshold is
    smaller. *)
Theorem filterBreachedAlerts_very_old
    (alerts : list Alert) (c h m l : Duration) (w : World)
    (i : nat) (a : Alert) :
  alerts !! i = Some a ->
  wall w (ticks w + i)%nat - CreatedAt a > maxDuration ->
  age w i a = maxDuration
  /\ (Z.min c (Z.min h (Z.min m l)) < maxDuration ->
      a ∈ (filterBreachedAlerts alerts c h m l w).1).
Proof.
  intros Hi Hold.
  assert (Hage : age w i a = maxDuration).
  { unfold age, Sub.
    destruct (Z.ltb_spec maxDuration (wall w (ticks w + i)%nat - CreatedAt a));
      [done|lia]. }
  split; [done|]. intros Hmin.
  apply elem_of_filterBreachedAlerts. exists i. split; [done|]. lia.
Qed.

Lemma filterBreachedAlerts_very_old_witness :
  age (quiet sample_event (2 ^ 65)) 0 (sample_alert "CodeScanning" "" 0)
  = maxDuration.
Proof.
  refine (proj1 (filterBreachedAlerts_very_old
                   [sample_alert "CodeScanning" "" 0]
                   (1 * Day) (7 * Day) (30 * Day) (90 * Day)
                   (quiet sample_event (2 ^ 65)) 0
                   (sample_alert "CodeScanning" "" 0) eq_refl _)).
  vm_compute. reflexivity.
Defined.
